(** * Orphaned MCP process cleanup: a model of [src/server/mcpCleanup.ts]

    The module keeps two process-wide arrays (watched command-line patterns
    and watched ports), discovers processes through shell commands, merges
    the findings by process identifier and terminates each process with a
    SIGTERM / probe / SIGKILL / probe escalation.

    The operating system is an interface ([OS]): a world that answers
    [process.kill], [execAsync] and the passing of time.  Every function
    of the module is a computation in a state monad with exceptions whose
    state holds the two arrays, the world and the trace of effects, so that
    what was signalled, in which order, is part of every statement. *)

From Stdlib Require Import String Ascii ZArith List Bool Lia DecimalString.
Import ListNotations.

Local Open Scope string_scope.
Local Open Scope Z_scope.

Set Implicit Arguments.

(* ===================================================================== *)
(** ** JavaScript string primitives used by the module *)
(* ===================================================================== *)

(** Strings are sequences of code units below 256.  Numbers that the module
    reads with [parseInt] are integers; they are modelled as [Z], which is
    exact for every value a double represents exactly (|n| <= 2^53). *)
Module JS.

(** WhiteSpace and LineTerminator code units below 256: TAB, LF, VT, FF,
    CR, SP and NBSP.  [trim], the regexp class [\s] and [parseInt] all
    use this set. *)
Definition is_ws (c : ascii) : bool :=
  let n := nat_of_ascii c in
  (Nat.eqb n 9 || Nat.eqb n 10 || Nat.eqb n 11 || Nat.eqb n 12
   || Nat.eqb n 13 || Nat.eqb n 32 || Nat.eqb n 160)%bool.

Definition is_empty (s : string) : bool :=
  match s with EmptyString => true | String _ _ => false end.

(** A string is truthy when it is not empty. *)
Definition truthy (s : string) : bool := negb (is_empty s).

Fixpoint trimStart (s : string) : string :=
  match s with
  | EmptyString => EmptyString
  | String c s' => if is_ws c then trimStart s' else s
  end.

Fixpoint trimEnd (s : string) : string :=
  match s with
  | EmptyString => EmptyString
  | String c s' =>
      let t := trimEnd s' in
      if (is_ws c && is_empty t)%bool then EmptyString else String c t
  end.

(** [s.trim()] *)
Definition trim (s : string) : string := trimEnd (trimStart s).

(** [s.split(sep)] for a one-character separator; never empty. *)
Fixpoint split (sep : ascii) (s : string) : list string :=
  match s with
  | EmptyString => [EmptyString]
  | String c s' =>
      if Ascii.eqb c sep then EmptyString :: split sep s'
      else match split sep s' with
           | h :: t => String c h :: t
           | [] => [String c EmptyString]
           end
  end.

(** [s.split(/\s+/)]: [in_run] tells that the previous character
    belonged to a separator run. *)
Fixpoint split_ws_from (in_run : bool) (s : string) : list string :=
  match s with
  | EmptyString => [EmptyString]
  | String c s' =>
      if is_ws c then
        if in_run then split_ws_from true s'
        else EmptyString :: split_ws_from true s'
      else match split_ws_from false s' with
           | h :: t => String c h :: t
           | [] => [String c EmptyString]
           end
  end.

Definition split_ws (s : string) : list string := split_ws_from false s.

(** [s.includes(sub)] *)
Fixpoint includes (sub s : string) : bool :=
  (String.prefix sub s
   || match s with
      | EmptyString => false
      | String _ s' => includes sub s'
      end)%bool.

Definition digit_of (c : ascii) : option Z :=
  let n := nat_of_ascii c in
  if (Nat.leb 48 n && Nat.leb n 57)%bool then Some (Z.of_nat n - 48)
  else None.

(** The value of the longest prefix of decimal digits, [acc] being the
    value read so far ([None] when no digit was read). *)
Fixpoint digits (acc : option Z) (s : string) : option Z :=
  match s with
  | EmptyString => acc
  | String c s' =>
      match digit_of c with
      | Some d =>
          digits (Some (10 * match acc with Some a => a | None => 0 end + d)) s'
      | None => acc
      end
  end.

(** [parseInt(s, 10)]; [None] is NaN. *)
Definition parseInt (s : string) : option Z :=
  match trimStart s with
  | String "-" r => option_map Z.opp (digits None r)
  | String "+" r => digits None r
  | r => digits None r
  end.

(** The template substitution [${n}] of an integer. *)
Definition toString (n : Z) : string := NilZero.string_of_int (Z.to_int n).

(** [a[i]] on an array of strings; out of range is [undefined], which
    every use in the module guards by a length test or by [split]
    returning at least one element. *)
Definition at_index (a : list string) (i : nat) : string := nth i a EmptyString.

Definition LF : ascii := ascii_of_nat 10.

End JS.

(* ===================================================================== *)
(** ** Data model *)
(* ===================================================================== *)

(** [interface ProcessInfo { pid; name; port? }] *)
Record ProcessInfo := mkProcessInfo {
  pid : Z;
  name : string;
  port : option Z
}.

(** The [reason] of a [KillResult]. *)
Inductive Reason := killed | already_dead | permission_denied | error.

(** [interface KillResult { success; reason? }] *)
Record KillResult := mkKillResult {
  success : bool;
  reason : option Reason
}.

(** The second argument of [process.kill]; [SIG0] is the existence probe
    [process.kill(pid, 0)]. *)
Inductive Signal := SIGTERM | SIGKILL | SIG0.

(** The [code] of the error [process.kill] throws. *)
Inductive ErrCode := ESRCH | EPERM | OtherCode (c : string).

(** What a [try] block can catch: an error of [process.kill], carrying a
    code, or the rejection of [execAsync]. *)
Inductive Exn := KillError (code : ErrCode) | ExecError.

Definition code_of (e : Exn) : option ErrCode :=
  match e with KillError c => Some c | ExecError => None end.

(** Console lines; the payload of each template string is kept. *)
Inductive LogMsg :=
| MsgChecking
| MsgNoneFound
| MsgFound (size : Z)
| MsgEntry (p : Z) (nm : string)
| MsgAlreadyTerminated (p : Z)
| MsgKilled (p : Z)
| MsgFailedToKill (p : Z) (reasonText : string)
| MsgCleanedUp (n size : Z)
| MsgFreedPort (prt p : Z)
| MsgSearchFailed (e : Exn)
| MsgPortCheckFailed (e : Exn).

(** Observable effects, in the order they happen. *)
Inductive Event :=
| EvKill (p : Z) (sig : Signal)
| EvExec (cmd : string)
| EvSleep (ms : Z)
| EvLog (m : LogMsg)
| EvWarn (m : LogMsg).

(** The operating system as the module sees it.  [os_kill] answers
    [process.kill] ([None]: delivered, [Some c]: thrown with code [c]),
    [os_exec] answers [execAsync] ([Some stdout]: resolved, [None]:
    rejected), [os_sleep] lets the given number of milliseconds pass and
    [os_platform] is [process.platform]. *)
Class OS := {
  World : Type;
  os_platform : string;
  os_kill : World -> Z -> Signal -> World * option ErrCode;
  os_exec : World -> string -> World * option string;
  os_sleep : World -> Z -> World
}.

(* ===================================================================== *)
(** ** The effect monad *)
(* ===================================================================== *)

(** The two module-level arrays, the world and the trace. *)
Record State (W : Type) := mkState {
  MCP_PROCESS_PATTERNS : list string;
  MCP_PORTS : list Z;
  world : W;
  trace : list Event
}.

Inductive Outcome (A : Type) :=
| Val (a : A)
| Throw (e : Exn).
Arguments Throw {A} e.
Arguments Val {A} a.

Section Effects.

Context {os : OS}.

(** Effects persist when an exception is thrown: the state is returned
    on both outcomes. *)
Definition M (A : Type) : Type := State World -> Outcome A * State World.

Definition ret {A} (a : A) : M A := fun s => (Val a, s).

Definition bind {A B} (m : M A) (k : A -> M B) : M B :=
  fun s => match m s with
           | (Val a, s') => k a s'
           | (Throw e, s') => (Throw e, s')
           end.

(** [try { m } catch (e) { h e }] *)
Definition try_catch {A} (m : M A) (h : Exn -> M A) : M A :=
  fun s => match m s with
           | (Val a, s') => (Val a, s')
           | (Throw e, s') => h e s'
           end.

Definition emit (ev : Event) (s : State World) : State World :=
  mkState (MCP_PROCESS_PATTERNS s) (MCP_PORTS s) (world s)
          (trace s ++ [ev])%list.

Definition set_world (w : World) (s : State World) : State World :=
  mkState (MCP_PROCESS_PATTERNS s) (MCP_PORTS s) w (trace s).

(** [process.kill(pid, sig)] *)
Definition process_kill (p : Z) (sig : Signal) : M unit :=
  fun s =>
    let s1 := emit (EvKill p sig) s in
    match os_kill (world s1) p sig with
    | (w, None) => (Val tt, set_world w s1)
    | (w, Some c) => (Throw (KillError c), set_world w s1)
    end.

(** [await execAsync(cmd)], giving [stdout]. *)
Definition execAsync (cmd : string) : M string :=
  fun s =>
    let s1 := emit (EvExec cmd) s in
    match os_exec (world s1) cmd with
    | (w, Some out) => (Val out, set_world w s1)
    | (w, None) => (Throw ExecError, set_world w s1)
    end.

(** [await new Promise(resolve => setTimeout(resolve, ms))] *)
Definition sleep (ms : Z) : M unit :=
  fun s =>
    let s1 := emit (EvSleep ms) s in
    (Val tt, set_world (os_sleep (world s1) ms) s1).

Definition console_log (m : LogMsg) : M unit :=
  fun s => (Val tt, emit (EvLog m) s).

Definition console_warn (m : LogMsg) : M unit :=
  fun s => (Val tt, emit (EvWarn m) s).

Definition read_patterns : M (list string) :=
  fun s => (Val (MCP_PROCESS_PATTERNS s), s).

Definition read_ports : M (list Z) :=
  fun s => (Val (MCP_PORTS s), s).

(** [for (const x of l) body], the body updating the local variables
    [acc].  A throwing body stops the loop; the locals keep the value
    they had, and the exception is handed to the enclosing [catch]. *)
Fixpoint for_of {A B} (l : list A) (body : B -> A -> M B) (acc : B)
  : State World -> (B * option Exn) * State World :=
  fun s =>
    match l with
    | [] => ((acc, None), s)
    | x :: l' =>
        match body acc x s with
        | (Val acc', s') => for_of l' body acc' s'
        | (Throw e, s') => ((acc, Some e), s')
        end
    end.

(** [for (const x of l) body], the body possibly executing [return v]
    ([Some v]). *)
Fixpoint for_of_return {A B} (l : list A) (body : A -> M (option B))
  : M (option B) :=
  match l with
  | [] => ret None
  | x :: l' =>
      bind (body x) (fun r =>
        match r with
        | Some v => ret (Some v)
        | None => for_of_return l' body
        end)
  end.

End Effects.

Declare Scope js_scope.
Delimit Scope js_scope with js.
Notation "x <- m ;; k" := (bind m (fun x => k))
  (at level 61, m at next level, right associativity) : js_scope.
Notation "m ;; k" := (bind m (fun _ => k))
  (at level 61, right associativity) : js_scope.
Local Open Scope js_scope.

(* ===================================================================== *)
(** ** The module *)
(* ===================================================================== *)

(** [const MCP_PROCESS_PATTERNS = [...]] as the module is loaded. *)
Definition initial_patterns : list string :=
  ["robloxstudio-mcp"; "mcp-remote"; "mcp-server"].

(** [const MCP_PORTS = [3002]] as the module is loaded. *)
Definition initial_ports : list Z := [3002].

(** The double quote, for the command lines. *)
Definition dq : string := String (ascii_of_nat 34) EmptyString.

Definition wmic_command (pattern : string) : string :=
  "wmic process where " ++ dq ++ "commandline like '%" ++ pattern ++ "%'" ++ dq
  ++ " get processid,name /format:csv 2>nul".

Definition pgrep_command (pattern : string) : string :=
  "pgrep -f " ++ dq ++ pattern ++ dq ++ " 2>/dev/null || true".

Definition netstat_command (prt : Z) : string :=
  "netstat -ano | findstr " ++ dq ++ ":" ++ JS.toString prt ++ dq ++ " 2>nul".

Definition lsof_command (prt : Z) : string :=
  "lsof -ti:" ++ JS.toString prt ++ " 2>/dev/null || true".

(** [processes.push(h)] *)
Definition push {A} (a : list A) (x : A) : list A := (a ++ [x])%list.

(** The handles the WMIC branch of [findMcpProcesses] pushes for one
    pattern, given the command's [stdout]. *)
Definition wmic_pushes (pattern stdout : string) (processes : list ProcessInfo)
  : list ProcessInfo :=
  let lines :=
    filter (fun l => (JS.truthy (JS.trim l)
                      && negb (JS.includes "Node,Name,ProcessId" l))%bool)
           (JS.split JS.LF (JS.trim stdout)) in
  fold_left
    (fun processes line =>
       let parts := JS.split "," line in
       if (3 <=? length parts)%nat then
         match JS.parseInt (JS.at_index parts 2) with
         | Some p => push processes (mkProcessInfo p pattern None)
         | None => processes
         end
       else processes)
    lines processes.

(** The handles the [pgrep] and [lsof] branches push: one per line of
    [stdout] that is not blank and parses as a number. *)
Definition pid_lines_pushes (nm : string) (prt : option Z) (stdout : string)
           (processes : list ProcessInfo) : list ProcessInfo :=
  let pids := filter (fun p => JS.truthy (JS.trim p))
                     (JS.split JS.LF (JS.trim stdout)) in
  fold_left
    (fun processes pidStr =>
       match JS.parseInt pidStr with
       | Some p => push processes (mkProcessInfo p nm prt)
       | None => processes
       end)
    pids processes.

(** The test of one [netstat] line, shared by [findProcessesOnMcpPorts]
    and [freePort]: at least five columns, the local address mentions
    [:port], and the last column is a number other than 0. *)
Definition netstat_line_pid (prt : Z) (line : string) : option Z :=
  let parts := JS.split_ws (JS.trim line) in
  if ((5 <=? length parts)%nat
      && JS.includes (":" ++ JS.toString prt) (JS.at_index parts 1))%bool then
    match JS.parseInt (JS.at_index parts 4) with
    | Some p => if negb (p =? 0) then Some p else None
    | None => None
    end
  else None.

(** The handles the [netstat] branch of [findProcessesOnMcpPorts] pushes. *)
Definition netstat_pushes (prt : Z) (stdout : string)
           (processes : list ProcessInfo) : list ProcessInfo :=
  fold_left
    (fun processes line =>
       match netstat_line_pid prt line with
       | Some p =>
           push processes (mkProcessInfo p ("port:" ++ JS.toString prt) (Some prt))
       | None => processes
       end)
    (JS.split JS.LF (JS.trim stdout)) processes.

(** [new Map<number, ProcessInfo>()]: entries in insertion order, which is
    the order [values()] iterates in. *)
Module NumMap.
Definition t := list (Z * ProcessInfo).
Definition empty : t := [].
Definition has (m : t) (k : Z) : bool := existsb (fun e => fst e =? k) m.
Definition get (m : t) (k : Z) : option ProcessInfo :=
  option_map snd (find (fun e => fst e =? k) m).
(** [set] keeps the position of a key that is present. *)
Definition set (m : t) (k : Z) (v : ProcessInfo) : t :=
  if has m k then map (fun e => if fst e =? k then (k, v) else e) m
  else (m ++ [(k, v)])%list.
Definition values (m : t) : list ProcessInfo := map snd m.
Definition keys (m : t) : list Z := map fst m.
Definition size (m : t) : Z := Z.of_nat (length m).
End NumMap.

(** The merge loop of [cleanupOrphanedMcpProcesses] (lines 203-208). *)
Definition dedupe (procs : list ProcessInfo) : NumMap.t :=
  fold_left
    (fun allProcesses proc =>
       if negb (NumMap.has allProcesses (pid proc))
       then NumMap.set allProcesses (pid proc) proc
       else allProcesses)
    procs NumMap.empty.

Section Program.

Context {os : OS}.

Definition is_win32 : bool := String.eqb os_platform "win32".

(** [try { for (const x of l) body } catch (e) { h }] followed by the
    use of the locals. *)
Definition for_of_catch {A B} (l : list A) (body : B -> A -> M B) (acc : B)
           (h : Exn -> M unit) : M B :=
  fun s =>
    match for_of l body acc s with
    | ((b, None), s') => (Val b, s')
    | ((b, Some e), s') => (h e ;; ret b) s'
    end.

(** [for (const x of l) body] outside any [try]. *)
Definition for_each {A B} (l : list A) (body : B -> A -> M B) (acc : B) : M B :=
  fun s =>
    match for_of l body acc s with
    | ((b, None), s') => (Val b, s')
    | ((_, Some e), s') => (Throw e, s')
    end.

(** [async function findMcpProcesses()] *)
Definition findMcpProcesses : M (list ProcessInfo) :=
  patterns <- read_patterns ;;
  if is_win32 then
    for_of_catch patterns
      (fun processes pattern =>
         try_catch
           (stdout <- execAsync (wmic_command pattern) ;;
            ret (wmic_pushes pattern stdout processes))
           (fun _ => ret processes))
      []
      (fun e => console_warn (MsgSearchFailed e))
  else
    for_of_catch patterns
      (fun processes pattern =>
         try_catch
           (stdout <- execAsync (pgrep_command pattern) ;;
            ret (pid_lines_pushes pattern None stdout processes))
           (fun _ => ret processes))
      []
      (fun e => console_warn (MsgSearchFailed e)).

(** [async function findProcessesOnMcpPorts()] *)
Definition findProcessesOnMcpPorts : M (list ProcessInfo) :=
  ports <- read_ports ;;
  for_of_catch ports
    (fun processes prt =>
       if is_win32 then
         try_catch
           (stdout <- execAsync (netstat_command prt) ;;
            ret (netstat_pushes prt stdout processes))
           (fun _ => ret processes)
       else
         try_catch
           (stdout <- execAsync (lsof_command prt) ;;
            ret (pid_lines_pushes ("port:" ++ JS.toString prt) (Some prt)
                                  stdout processes))
           (fun _ => ret processes))
    []
    (fun e => console_warn (MsgPortCheckFailed e)).

(** [async function killProcess(pid)] *)
Definition killProcess (p : Z) : M KillResult :=
  try_catch
    (process_kill p SIGTERM ;;
     sleep 500 ;;
     try_catch
       (process_kill p SIG0 ;;
        process_kill p SIGKILL ;;
        sleep 200 ;;
        try_catch
          (process_kill p SIG0 ;;
           ret (mkKillResult false (Some error)))
          (fun _ => ret (mkKillResult true (Some killed))))
       (fun _ => ret (mkKillResult true (Some killed))))
    (fun err =>
       match code_of err with
       | Some ESRCH => ret (mkKillResult true (Some already_dead))
       | Some EPERM => ret (mkKillResult false (Some permission_denied))
       | _ => ret (mkKillResult false (Some error))
       end).

(** The body of the termination loop of [cleanupOrphanedMcpProcesses]
    (lines 221-234); the local variable is [killed]. *)
Definition kill_and_count (killed_count : Z) (proc : ProcessInfo) : M Z :=
  result <- killProcess (pid proc) ;;
  if success result then
    (match reason result with
     | Some already_dead => console_log (MsgAlreadyTerminated (pid proc))
     | _ => console_log (MsgKilled (pid proc))
     end) ;;
    ret (killed_count + 1)
  else
    let reasonText :=
      match reason result with
      | Some permission_denied => "permission denied"
      | _ => "unknown error"
      end in
    console_warn (MsgFailedToKill (pid proc) reasonText) ;;
    ret killed_count.

(** [export async function cleanupOrphanedMcpProcesses()] *)
Definition cleanupOrphanedMcpProcesses : M Z :=
  console_log MsgChecking ;;
  processesByName <- findMcpProcesses ;;
  processesByPort <- findProcessesOnMcpPorts ;;
  let allProcesses := dedupe (processesByName ++ processesByPort)%list in
  if NumMap.size allProcesses =? 0 then
    console_log MsgNoneFound ;;
    ret 0
  else
    console_log (MsgFound (NumMap.size allProcesses)) ;;
    for_each (NumMap.values allProcesses)
      (fun (_ : unit) proc => console_log (MsgEntry (pid proc) (name proc)))
      tt ;;
    killed_count <- for_each (NumMap.values allProcesses) kill_and_count 0 ;;
    console_log (MsgCleanedUp killed_count (NumMap.size allProcesses)) ;;
    ret killed_count.

(** [export async function freePort(port)].  The loop and the [if] of
    the two branches give [Some v] when they execute [return v]. *)
Definition freePort (prt : Z) : M bool :=
  try_catch
    (early <-
       (if is_win32 then
          stdout <- execAsync (netstat_command prt) ;;
          let lines := JS.split JS.LF (JS.trim stdout) in
          for_of_return lines
            (fun line =>
               match netstat_line_pid prt line with
               | Some p =>
                   killProcess p ;;
                   console_log (MsgFreedPort prt p) ;;
                   ret (Some true)
               | None => ret None
               end)
        else
          stdout <- execAsync (lsof_command prt) ;;
          let pidStr := JS.at_index (JS.split JS.LF (JS.trim stdout)) 0 in
          if JS.truthy pidStr then
            match JS.parseInt pidStr with
            | Some p =>
                killProcess p ;;
                console_log (MsgFreedPort prt p) ;;
                ret (Some true)
            | None => ret None
            end
          else ret None) ;;
     match early with
     | Some v => ret v
     | None => ret true
     end)
    (fun _ => ret false).

(** [export function registerMcpPort(port)] *)
Definition registerMcpPort (prt : Z) : M unit :=
  fun s =>
    if negb (existsb (Z.eqb prt) (MCP_PORTS s)) then
      (Val tt, mkState (MCP_PROCESS_PATTERNS s) (push (MCP_PORTS s) prt)
                       (world s) (trace s))
    else (Val tt, s).

(** [export function registerMcpPattern(pattern)] *)
Definition registerMcpPattern (pattern : string) : M unit :=
  fun s =>
    if negb (existsb (String.eqb pattern) (MCP_PROCESS_PATTERNS s)) then
      (Val tt, mkState (push (MCP_PROCESS_PATTERNS s) pattern) (MCP_PORTS s)
                       (world s) (trace s))
    else (Val tt, s).

(** The state right after the module is loaded. *)
Definition initial_state (w : World) : State World :=
  mkState initial_patterns initial_ports w [].

End Program.

(* ===================================================================== *)
(** ** A scripted operating system, to run the module on concrete inputs *)
(* ===================================================================== *)

Module Sim.

(** How a process reacts to signals: [Cooperative] exits on SIGTERM,
    [Stubborn] only on SIGKILL, [Immortal] on neither, and [Foreign]
    belongs to another user. *)
Inductive Temper := Cooperative | Stubborn | Immortal | Foreign.

Record Proc := mkProc {
  proc_id : Z;
  temper : Temper;
  exiting : bool
}.

(** The process table and the answer of each shell command ([None]:
    the command fails and [execAsync] rejects).  A command that is not
    listed prints nothing and succeeds. *)
Record SimWorld := mkSim {
  procs : list Proc;
  answers : list (string * option string)
}.

Definition lookup_proc (w : SimWorld) (p : Z) : option Proc :=
  find (fun q => proc_id q =? p) (procs w).

Definition dies_on (t : Temper) (sig : Signal) : bool :=
  match t, sig with
  | Cooperative, SIGTERM => true
  | Cooperative, SIGKILL => true
  | Stubborn, SIGKILL => true
  | _, _ => false
  end.

Definition sim_kill (w : SimWorld) (p : Z) (sig : Signal)
  : SimWorld * option ErrCode :=
  match lookup_proc w p with
  | None => (w, Some ESRCH)
  | Some q =>
      match temper q with
      | Foreign => (w, Some EPERM)
      | t =>
          (mkSim (map (fun r => if proc_id r =? p
                                then mkProc (proc_id r) (temper r)
                                            (exiting r || dies_on t sig)
                                else r) (procs w))
                 (answers w),
           None)
      end
  end.

(** Processes that were told to exit are gone after any wait. *)
Definition sim_sleep (w : SimWorld) (ms : Z) : SimWorld :=
  mkSim (filter (fun q => negb (exiting q)) (procs w)) (answers w).

Definition sim_exec (w : SimWorld) (cmd : string) : SimWorld * option string :=
  match find (fun a => String.eqb (fst a) cmd) (answers w) with
  | Some (_, r) => (w, r)
  | None => (w, Some EmptyString)
  end.

Definition posix : OS :=
  {| World := SimWorld; os_platform := "linux";
     os_kill := sim_kill; os_exec := sim_exec; os_sleep := sim_sleep |}.

Definition windows : OS :=
  {| World := SimWorld; os_platform := "win32";
     os_kill := sim_kill; os_exec := sim_exec; os_sleep := sim_sleep |}.

Definition lines (l : list string) : string :=
  String.concat (String JS.LF EmptyString) l.

End Sim.

(** The value a computation returns, [None] when it throws. *)
Definition returned {W A} (r : Outcome A * State W) : option A :=
  match fst r with Val a => Some a | Throw _ => None end.

(** The signals a trace contains, probes included, in order. *)
Definition signals (tr : list Event) : list (Z * Signal) :=
  flat_map (fun ev => match ev with EvKill p sig => [(p, sig)] | _ => [] end) tr.



(** One turn of the merge loop. *)
Definition dedupe_step (allProcesses : NumMap.t) (proc : ProcessInfo) : NumMap.t :=
  if negb (NumMap.has allProcesses (pid proc))
  then NumMap.set allProcesses (pid proc) proc
  else allProcesses.

(* ===================================================================== *)
(** ** The answers of the operating system to one termination *)
(* ===================================================================== *)

Section Answers.

Context {os : OS}.

(** The answers of the operating system along one run of [killProcess]:
    to SIGTERM, to the probe 500 ms later, to SIGKILL, and to the probe
    200 ms after that. *)
Definition graceful (w : World) (p : Z) : World * option ErrCode :=
  os_kill w p SIGTERM.

Definition first_probe (w : World) (p : Z) : World * option ErrCode :=
  os_kill (os_sleep (fst (graceful w p)) 500) p SIG0.

Definition forced (w : World) (p : Z) : World * option ErrCode :=
  os_kill (fst (first_probe w p)) p SIGKILL.

Definition second_probe (w : World) (p : Z) : World * option ErrCode :=
  os_kill (os_sleep (fst (forced w p)) 200) p SIG0.

(** What [killProcess] answers for each code thrown by SIGTERM. *)
Definition verdict_of_code (c : ErrCode) : KillResult :=
  match c with
  | ESRCH => mkKillResult true (Some already_dead)
  | EPERM => mkKillResult false (Some permission_denied)
  | OtherCode _ => mkKillResult false (Some error)
  end.

(** The result, the final world and the events of one run of
    [killProcess], read off the four answers. *)
Definition kill_run (w0 : World) (p : Z) : KillResult * World * list Event :=
  match graceful w0 p with
  | (w, Some c) => (verdict_of_code c, w, [EvKill p SIGTERM])
  | (_, None) =>
      match first_probe w0 p with
      | (w, Some _) =>
          (mkKillResult true (Some killed), w,
           [EvKill p SIGTERM; EvSleep 500; EvKill p SIG0])
      | (_, None) =>
          match forced w0 p with
          | (w, Some _) =>
              (mkKillResult true (Some killed), w,
               [EvKill p SIGTERM; EvSleep 500; EvKill p SIG0; EvKill p SIGKILL])
          | (_, None) =>
              match second_probe w0 p with
              | (w, Some _) =>
                  (mkKillResult true (Some killed), w,
                   [EvKill p SIGTERM; EvSleep 500; EvKill p SIG0;
                    EvKill p SIGKILL; EvSleep 200; EvKill p SIG0])
              | (w, None) =>
                  (mkKillResult false (Some error), w,
                   [EvKill p SIGTERM; EvSleep 500; EvKill p SIG0;
                    EvKill p SIGKILL; EvSleep 200; EvKill p SIG0])
              end
          end
      end
  end.

End Answers.

(* ===================================================================== *)
(** ** Notions the statements are written with *)
(* ===================================================================== *)

(** The first element of [l] on which [f] answers. *)
Fixpoint first_some {A B} (f : A -> option B) (l : list A) : option B :=
  match l with
  | nil => None
  | x :: l' => match f x with Some b => Some b | None => first_some f l' end
  end.

(** The events the operating system sees: everything but the console. *)
Definition os_events (tr : list Event) : list Event :=
  filter (fun ev => match ev with EvLog _ | EvWarn _ => false | _ => true end) tr.

(** Two states that differ at most in what was written to the console. *)
Definition same_but_console {W} (s t : State W) : Prop :=
  MCP_PROCESS_PATTERNS s = MCP_PROCESS_PATTERNS t
  /\ MCP_PORTS s = MCP_PORTS t
  /\ world s = world t
  /\ os_events (trace s) = os_events (trace t).


Section Notions.

Context {os : OS}.

(** The command [freePort] looks the port up with. *)
Definition lookup_command (prt : Z) : string :=
  if is_win32 then netstat_command prt else lsof_command prt.

(** The process [freePort] decides to terminate, given the output of the
    lookup: on Windows the first line that passes the test of
    [netstat_line_pid]; elsewhere the first line, when it is not empty and
    parses as a number. *)
Definition freePort_target (prt : Z) (stdout : string) : option Z :=
  if is_win32 then
    first_some (netstat_line_pid prt) (JS.split JS.LF (JS.trim stdout))
  else
    let pidStr := JS.at_index (JS.split JS.LF (JS.trim stdout)) 0 in
    if JS.truthy pidStr then JS.parseInt pidStr else None.

(** The process identifiers the port scanner reads off the same output,
    in the order it pushes them. *)
Definition reported_pids (prt : Z) (stdout : string) : list Z :=
  map pid
      (if is_win32 then netstat_pushes prt stdout nil
       else pid_lines_pushes ("port:" ++ JS.toString prt) (Some prt) stdout nil).

(** The spec's words for the sweep, to compare [cleanupOrphanedMcpProcesses]
    with: terminate the given processes one after the other, keeping each
    outcome. *)
Fixpoint terminate_all (pids : list Z) : M (list KillResult) :=
  match pids with
  | nil => ret nil
  | p :: rest =>
      outcome <- killProcess p ;;
      outcomes <- terminate_all rest ;;
      ret (outcome :: outcomes)
  end.

(** An outcome that counts: terminated ([killed]) or [already_dead]. *)
Definition counted (r : KillResult) : bool :=
  match reason r with
  | Some killed | Some already_dead => true
  | _ => false
  end.

(** The two discovery calls at the head of the sweep. *)
Definition discover : M (list ProcessInfo * list ProcessInfo) :=
  byName <- findMcpProcesses ;;
  byPort <- findProcessesOnMcpPorts ;;
  ret (byName, byPort).

(** The spec's words: run the matcher and the scanner, deduplicate. *)
Definition sweep_targets : M (list Z) :=
  byName <- findMcpProcesses ;;
  byPort <- findProcessesOnMcpPorts ;;
  ret (NumMap.keys (dedupe (byName ++ byPort)%list)).

(** The spec's words: terminate every handle of the deduplicated set in
    sequence and return the number of outcomes that count. *)
Definition sweep_spec : M Z :=
  pids <- sweep_targets ;;
  outcomes <- terminate_all pids ;;
  ret (Z.of_nat (length (filter counted outcomes))).

(** A computation that always returns: it never throws to its caller. *)
Definition total {A} (m : M A) : Prop :=
  forall s, exists a s', m s = (Val a, s').

(** A computation that does not read the console: from two states that
    differ at most in console lines it gives the same outcome and two
    states that again differ at most in console lines. *)
Definition respects {A} (m : M A) : Prop :=
  forall s t, same_but_console s t ->
    fst (m s) = fst (m t) /\ same_but_console (snd (m s)) (snd (m t)).

End Notions.

(** A process table with one process of each temper, and the answers of
    the lookups used in the examples. *)
Definition demo_world : Sim.SimWorld :=
  Sim.mkSim
    [Sim.mkProc 10 Sim.Cooperative false; Sim.mkProc 11 Sim.Stubborn false;
     Sim.mkProc 12 Sim.Immortal false; Sim.mkProc 13 Sim.Foreign false]
    [(pgrep_command "mcp-server", Some (Sim.lines ["10"; "11"]%string));
     (pgrep_command "mcp-remote", None);
     (lsof_command 3002, Some (Sim.lines ["11"; "10"]%string));
     (lsof_command 3003, Some "12"%string);
     (lsof_command 3004, None);
     (netstat_command 3002, None);
     (netstat_command 3003,
      Some (Sim.lines ["  TCP    0.0.0.0:3003    0.0.0.0:0    LISTENING    12";
                       "  TCP    [::]:3003       [::]:0       LISTENING    10"]%string))].

Definition demo_posix : State Sim.SimWorld := @initial_state Sim.posix demo_world.
Definition demo_windows : State Sim.SimWorld := @initial_state Sim.windows demo_world.


(* ===================================================================== *)
(** ** Notions for the further properties of the module *)
(* ===================================================================== *)

(** [s'] is [s] with the events [evs] appended to its trace; the watched
    arrays are those of [s]. *)
Definition grows_by {W} (s s' : State W) (evs : list Event) : Prop :=
  MCP_PROCESS_PATTERNS s' = MCP_PROCESS_PATTERNS s
  /\ MCP_PORTS s' = MCP_PORTS s
  /\ trace s' = (trace s ++ evs)%list.

(** The event is a SIGTERM sent to [q]. *)
Definition is_sigterm_to (q : Z) (ev : Event) : bool :=
  match ev with
  | EvKill p SIGTERM => p =? q
  | _ => false
  end.

(** The shell commands a trace contains, in order. *)
Definition commands (tr : list Event) : list string :=
  flat_map (fun ev => match ev with EvExec c => [c] | _ => [] end) tr.

(** The milliseconds a trace spends waiting. *)
Definition waited (tr : list Event) : Z :=
  fold_right (fun ev t => match ev with EvSleep ms => ms + t | _ => t end) 0 tr.

(** The events of the longest run of [killProcess]. *)
Definition full_escalation (p : Z) : list Event :=
  [EvKill p SIGTERM; EvSleep 500; EvKill p SIG0;
   EvKill p SIGKILL; EvSleep 200; EvKill p SIG0].

(** A call of one of the two registration functions. *)
Inductive Registration :=
| RegisterPort (prt : Z)
| RegisterPattern (pattern : string).

Section Registrations.

Context {os : OS}.

Definition register (r : Registration) : M unit :=
  match r with
  | RegisterPort prt => registerMcpPort prt
  | RegisterPattern pattern => registerMcpPattern pattern
  end.

(** The calls of a list, one after the other. *)
Fixpoint register_all (rs : list Registration) : M unit :=
  match rs with
  | nil => ret tt
  | r :: rs' => register r ;; register_all rs'
  end.

(** The command the matcher runs for a pattern. *)
Definition match_command (pattern : string) : string :=
  if is_win32 then wmic_command pattern else pgrep_command pattern.

(** The commands of one discovery: one per pattern, then one per port. *)
Definition discovery_events (s : State World) : list Event :=
  (map (fun pattern => EvExec (match_command pattern)) (MCP_PROCESS_PATTERNS s)
   ++ map (fun prt => EvExec (lookup_command prt)) (MCP_PORTS s))%list.

End Registrations.

(** Every character of [s] passes [f]. *)
Fixpoint all_chars (f : ascii -> bool) (s : string) : bool :=
  match s with
  | EmptyString => true
  | String c s' => (f c && all_chars f s')%bool
  end.

(** Whitespace only, possibly empty. *)
Definition blank (s : string) : bool := all_chars JS.is_ws s.

(** A column of a line: not empty, no whitespace. *)
Definition column (s : string) : bool :=
  (negb (JS.is_empty s) && all_chars (fun c => negb (JS.is_ws c)) s)%bool.

(** What separates two columns: whitespace, at least one character. *)
Definition gap (s : string) : bool := (negb (JS.is_empty s) && blank s)%bool.

(** How many SIGTERMs a trace sends to [q]. *)
Definition sigterms (q : Z) (tr : list Event) : nat :=
  length (filter (is_sigterm_to q) tr).

(** The event is a console line. *)
Definition is_console (ev : Event) : bool :=
  match ev with EvLog _ | EvWarn _ => true | _ => false end.

(** The first line of the output of a command, as [freePort] reads it
    on POSIX: [stdout.trim().split('\n')[0]]. *)
Definition first_line (stdout : string) : string :=
  JS.at_index (JS.split JS.LF (JS.trim stdout)) 0.

(** A machine on which no process runs and every command prints
    nothing. *)
Definition quiet_world : Sim.SimWorld := Sim.mkSim nil nil.

Definition quiet_posix : State Sim.SimWorld := @initial_state Sim.posix quiet_world.

(** A Windows machine where port 3002 shows a closing connection, listed
    under process 0, before its listener, process 44. *)
Definition time_wait_world : Sim.SimWorld :=
  Sim.mkSim
    [Sim.mkProc 0 Sim.Cooperative false; Sim.mkProc 44 Sim.Cooperative false]
    [(netstat_command 3002,
      Some (Sim.lines
              ["  TCP    127.0.0.1:3002    127.0.0.1:50001    TIME_WAIT    0";
               "  TCP    0.0.0.0:3002      0.0.0.0:0          LISTENING    44"]%string))].

Definition time_wait_windows : State Sim.SimWorld :=
  @initial_state Sim.windows time_wait_world.

Unset Implicit Arguments.

(* ===================================================================== *)
(** ** The string primitives on examples *)
(* ===================================================================== *)

Example trim_ex : JS.trim (String JS.LF " 12 34 " ++ String JS.LF "") = "12 34".
Proof. reflexivity. Qed.

Example split_ex : JS.split "," "a,,b," = ["a"; ""; "b"; ""].
Proof. reflexivity. Qed.

Example split_empty_ex : JS.split JS.LF "" = [""].
Proof. reflexivity. Qed.

Example split_ws_ex : JS.split_ws "TCP   0.0.0.0:3002  0.0.0.0:0 LISTENING 4242"
                      = ["TCP"; "0.0.0.0:3002"; "0.0.0.0:0"; "LISTENING"; "4242"].
Proof. reflexivity. Qed.

Example split_ws_edges : JS.split_ws " a " = [""; "a"; ""] /\ JS.split_ws "" = [""].
Proof. split; reflexivity. Qed.

Example parseInt_ex :
  JS.parseInt " 4242abc" = Some 4242 /\ JS.parseInt "-7" = Some (-7)
  /\ JS.parseInt "abc" = None /\ JS.parseInt "" = None /\ JS.parseInt "+" = None.
Proof. repeat split; reflexivity. Qed.

Example includes_ex :
  JS.includes ":3002" "0.0.0.0:3002" = true /\ JS.includes ":3002" "0.0.0.0:300" = false.
Proof. split; reflexivity. Qed.

(* ===================================================================== *)
(** ** Deduplication *)
(* ===================================================================== *)

Local Open Scope list_scope.

Section Dedupe.

Lemma dedupe_unfold procs : dedupe procs = fold_left dedupe_step procs NumMap.empty.
Proof. reflexivity. Qed.

Lemma has_keys m k : NumMap.has m k = true <-> In k (NumMap.keys m).
Proof.
  unfold NumMap.has, NumMap.keys. rewrite existsb_exists, in_map_iff.
  split; intros [e [H1 H2]]; exists e.
  - apply Z.eqb_eq in H2. tauto.
  - subst k. split; [assumption | apply Z.eqb_refl].
Qed.

Lemma has_false_get m k : NumMap.has m k = false -> NumMap.get m k = None.
Proof.
  unfold NumMap.has, NumMap.get. induction m as [|e m IH]; simpl; intros H.
  - reflexivity.
  - apply orb_false_iff in H. destruct H as [H1 H2]. rewrite H1. auto.
Qed.

Lemma has_true_get m k : NumMap.has m k = true -> exists v, NumMap.get m k = Some v.
Proof.
  unfold NumMap.has, NumMap.get. induction m as [|e m IH]; simpl; intros H.
  - discriminate.
  - destruct (fst e =? k) eqn:E; simpl in *.
    + eexists; reflexivity.
    + auto.
Qed.

Lemma get_app_fresh (m : NumMap.t) k k' v :
  NumMap.get (m ++ [(k', v)]) k =
  match NumMap.get m k with
  | Some x => Some x
  | None => if k' =? k then Some v else None
  end.
Proof.
  unfold NumMap.get. induction m as [|e m IH]; simpl.
  - destruct (k' =? k); reflexivity.
  - destruct (fst e =? k); simpl; [reflexivity | exact IH].
Qed.

Lemma step_fresh m proc :
  NumMap.has m (pid proc) = false -> dedupe_step m proc = (m ++ [(pid proc, proc)])%list.
Proof.
  intros H. unfold dedupe_step, NumMap.set. rewrite H. reflexivity.
Qed.

Lemma step_seen m proc :
  NumMap.has m (pid proc) = true -> dedupe_step m proc = m.
Proof.
  intros H. unfold dedupe_step. rewrite H. reflexivity.
Qed.

(** The loop looks a key up in what it had, then in what it reads. *)
Lemma fold_get procs : forall m k,
  NumMap.get (fold_left dedupe_step procs m) k =
  match NumMap.get m k with
  | Some v => Some v
  | None => find (fun h => pid h =? k) procs
  end.
Proof.
  induction procs as [|proc procs IH]; intros m k; simpl.
  - destruct (NumMap.get m k); reflexivity.
  - rewrite IH. destruct (NumMap.has m (pid proc)) eqn:Hhas.
    + rewrite (step_seen _ _ Hhas).
      destruct (NumMap.get m k) eqn:G; [reflexivity|].
      destruct (pid proc =? k) eqn:E; [|reflexivity].
      apply Z.eqb_eq in E. subst k.
      destruct (has_true_get _ _ Hhas) as [v Hv]. congruence.
    + rewrite (step_fresh _ _ Hhas), get_app_fresh.
      destruct (NumMap.get m k); [reflexivity|].
      destruct (pid proc =? k); reflexivity.
Qed.

Lemma fold_keys_NoDup procs : forall m,
  NoDup (NumMap.keys m) -> NoDup (NumMap.keys (fold_left dedupe_step procs m)).
Proof.
  induction procs as [|proc procs IH]; intros m Hm; simpl; [assumption|].
  apply IH. destruct (NumMap.has m (pid proc)) eqn:Hhas.
  - rewrite (step_seen _ _ Hhas). assumption.
  - rewrite (step_fresh _ _ Hhas). unfold NumMap.keys. rewrite map_app. simpl.
    apply NoDup_app; [assumption | repeat constructor; simpl; tauto |].
    intros x Hx [Hy|[]]. subst x.
    apply has_keys in Hx. congruence.
Qed.

Lemma fold_keyed procs : forall m,
  Forall (fun e => pid (snd e) = fst e) m ->
  Forall (fun e => pid (snd e) = fst e) (fold_left dedupe_step procs m).
Proof.
  induction procs as [|proc procs IH]; intros m Hm; simpl; [assumption|].
  apply IH. destruct (NumMap.has m (pid proc)) eqn:Hhas.
  - rewrite (step_seen _ _ Hhas). assumption.
  - rewrite (step_fresh _ _ Hhas). apply Forall_app. split; [assumption|].
    repeat constructor.
Qed.

Lemma get_some_keys m k : NumMap.get m k <> None <-> In k (NumMap.keys m).
Proof.
  rewrite <- has_keys. destruct (NumMap.has m k) eqn:H.
  - destruct (has_true_get _ _ H) as [v Hv]. rewrite Hv. split; [reflexivity|discriminate].
  - rewrite (has_false_get _ _ H). split; [tauto|discriminate].
Qed.

Lemma dedupe_keys_NoDup procs : NoDup (NumMap.keys (dedupe procs)).
Proof. rewrite dedupe_unfold. apply fold_keys_NoDup. constructor. Qed.

Lemma dedupe_get procs k :
  NumMap.get (dedupe procs) k = find (fun h => pid h =? k) procs.
Proof. rewrite dedupe_unfold, fold_get. reflexivity. Qed.

Lemma dedupe_values_pid procs :
  map pid (NumMap.values (dedupe procs)) = NumMap.keys (dedupe procs).
Proof.
  assert (H : Forall (fun e => pid (snd e) = fst e) (dedupe procs)).
  { rewrite dedupe_unfold. apply fold_keyed. constructor. }
  unfold NumMap.values, NumMap.keys. rewrite map_map.
  induction H as [|e m He Hm IH]; simpl; [reflexivity|].
  rewrite He, IH. reflexivity.
Qed.

End Dedupe.

(** C4.  Whatever the matcher and the scanner return, the merged map holds
    exactly one entry for each process identifier that occurs in either
    sequence and none for any other, and the entry of an identifier is its
    first occurrence in the order pattern matches, then port matches: the
    whole handle, so its label too. *)
Theorem dedupe_one_entry_first_wins (byName byPort : list ProcessInfo) :
  let allProcesses := dedupe (byName ++ byPort) in
  (forall k,
      count_occ Z.eq_dec (NumMap.keys allProcesses) k
      = if existsb (fun h => pid h =? k) (byName ++ byPort) then 1%nat else 0%nat)
  /\ (forall k,
         NumMap.get allProcesses k = find (fun h => pid h =? k) (byName ++ byPort))
  /\ (forall k h, In (k, h) allProcesses -> pid h = k).
Proof.
  intros allProcesses. subst allProcesses. split; [|split].
  - intros k.
    pose proof (dedupe_keys_NoDup (byName ++ byPort)) as Hnd.
    pose proof (get_some_keys (dedupe (byName ++ byPort)) k) as Hk.
    rewrite dedupe_get in Hk.
    rewrite (NoDup_count_occ Z.eq_dec) in Hnd. specialize (Hnd k).
    destruct (existsb (fun h => pid h =? k) (byName ++ byPort)) eqn:E.
    + apply existsb_exists in E. destruct E as [h [Hin Hp]].
      destruct (find (fun h => pid h =? k) (byName ++ byPort)) eqn:F.
      * assert (Hi : In k (NumMap.keys (dedupe (byName ++ byPort))))
          by (apply Hk; discriminate).
        apply (count_occ_In Z.eq_dec) in Hi. lia.
      * exfalso. apply (find_none _ _ F) in Hin. congruence.
    + destruct (find (fun h => pid h =? k) (byName ++ byPort)) eqn:F.
      * exfalso. apply find_some in F. destruct F as [Hin Hp].
        assert (Ht : existsb (fun h => pid h =? k) (byName ++ byPort) = true)
          by (apply existsb_exists; eauto).
        congruence.
      * apply (count_occ_not_In Z.eq_dec). intros Hi. apply Hk in Hi. congruence.
  - intros k. apply dedupe_get.
  - intros k h Hin.
    assert (H : Forall (fun e => pid (snd e) = fst e) (dedupe (byName ++ byPort))).
    { rewrite dedupe_unfold. apply fold_keyed. constructor. }
    rewrite Forall_forall in H. exact (H _ Hin).
Qed.

Example dedupe_both_strategies :
  dedupe ([mkProcessInfo 7 "mcp-remote" None; mkProcessInfo 9 "mcp-server" None;
           mkProcessInfo 7 "mcp-server" None]
          ++ [mkProcessInfo 9 "port:3002" (Some 3002);
              mkProcessInfo 4 "port:3002" (Some 3002)])
  = [(7, mkProcessInfo 7 "mcp-remote" None); (9, mkProcessInfo 9 "mcp-server" None);
     (4, mkProcessInfo 4 "port:3002" (Some 3002))].
Proof. reflexivity. Qed.

(* ===================================================================== *)
(** ** The terminator *)
(* ===================================================================== *)

(** Traces are built by appending one event at a time; this brings them
    to the form [trace s ++ [e1; ...; en]]. *)
Ltac trace_norm := repeat rewrite <- app_assoc; simpl.

Section Terminator.

Context {os : OS}.

(** [killProcess] always returns, and what it does is [kill_run]: the
    arrays are untouched and the events are appended to the trace. *)
Lemma killProcess_run (s : State World) (p : Z) :
  killProcess p s =
  (Val (fst (fst (kill_run (world s) p))),
   mkState (MCP_PROCESS_PATTERNS s) (MCP_PORTS s) (snd (fst (kill_run (world s) p)))
           (trace s ++ snd (kill_run (world s) p))).
Proof.
  unfold kill_run, second_probe, forced, first_probe, graceful.
  unfold killProcess, try_catch, bind, process_kill, sleep, ret, emit, set_world.
  simpl.
  destruct (os_kill (world s) p SIGTERM) as [w1 [c|]]; simpl.
  - destruct c; reflexivity.
  - destruct (os_kill (os_sleep w1 500) p SIG0) as [w2 [c|]]; simpl.
    + trace_norm. reflexivity.
    + destruct (os_kill w2 p SIGKILL) as [w3 [c|]]; simpl.
      * trace_norm. reflexivity.
      * destruct (os_kill (os_sleep w3 200) p SIG0) as [w4 [c|]]; simpl;
          trace_norm; reflexivity.
Qed.

Lemma kill_run_targets (w : World) (p : Z) :
  forall q sig, In (EvKill q sig) (snd (kill_run w p)) -> q = p.
Proof.
  intros q sig. unfold kill_run.
  destruct (graceful w p) as [w1 [c|]];
    [|destruct (first_probe w p) as [w2 [c|]];
      [|destruct (forced w p) as [w3 [c|]];
        [|destruct (second_probe w p) as [w4 [c|]]]]];
    simpl; intros H;
    repeat (destruct H as [H|H]; [inversion H; reflexivity || discriminate|]);
    try contradiction.
Qed.

(** A result is a success exactly when its reason is [killed] or
    [already_dead]. *)
Lemma kill_run_success (w : World) (p : Z) :
  success (fst (fst (kill_run w p))) =
  match reason (fst (fst (kill_run w p))) with
  | Some killed | Some already_dead => true
  | _ => false
  end.
Proof.
  unfold kill_run.
  destruct (graceful w p) as [w1 [c|]];
    [destruct c|destruct (first_probe w p) as [w2 [c|]];
      [|destruct (forced w p) as [w3 [c|]];
        [|destruct (second_probe w p) as [w4 [c|]]]]];
    reflexivity.
Qed.

End Terminator.

(** C2.  For a process that accepts SIGTERM: when the probe after the first
    wait reports it gone, [killProcess] answers success with reason
    [killed] (the spec's `terminated`) having sent SIGTERM and one probe and
    no SIGKILL; when it is still there, SIGKILL is delivered and the second
    probe reports it gone, the answer is again success with reason
    [killed]; when the second probe still finds it, the answer is failure
    with reason [error] (the spec's `failed`). *)
Theorem killProcess_escalation {os : OS} (s : State World) (p : Z) :
  snd (graceful (world s) p) = None ->
  (snd (first_probe (world s) p) = Some ESRCH ->
     returned (killProcess p s) = Some (mkKillResult true (Some killed))
     /\ trace (snd (killProcess p s))
        = trace s ++ [EvKill p SIGTERM; EvSleep 500; EvKill p SIG0])
  /\ (snd (first_probe (world s) p) = None -> snd (forced (world s) p) = None ->
      snd (second_probe (world s) p) = Some ESRCH ->
        returned (killProcess p s) = Some (mkKillResult true (Some killed))
        /\ trace (snd (killProcess p s))
           = trace s ++ [EvKill p SIGTERM; EvSleep 500; EvKill p SIG0;
                         EvKill p SIGKILL; EvSleep 200; EvKill p SIG0])
  /\ (snd (first_probe (world s) p) = None -> snd (forced (world s) p) = None ->
      snd (second_probe (world s) p) = None ->
        returned (killProcess p s) = Some (mkKillResult false (Some error))
        /\ trace (snd (killProcess p s))
           = trace s ++ [EvKill p SIGTERM; EvSleep 500; EvKill p SIG0;
                         EvKill p SIGKILL; EvSleep 200; EvKill p SIG0]).
Proof.
  intros Hterm. rewrite killProcess_run. unfold returned, kill_run. simpl.
  destruct (graceful (world s) p) as [w1 r1]. simpl in Hterm. subst r1.
  destruct (first_probe (world s) p) as [w2 r2].
  destruct (forced (world s) p) as [w3 r3].
  destruct (second_probe (world s) p) as [w4 r4]. simpl.
  split; [|split].
  - intros ->. split; reflexivity.
  - intros -> -> ->. split; reflexivity.
  - intros -> -> ->. split; reflexivity.
Qed.

(** C3.  When SIGTERM is answered with ESRCH, [killProcess] classifies the
    process as already dead, which is a success, and sends nothing else. *)
Theorem killProcess_no_such_process {os : OS} (s : State World) (p : Z) :
  snd (graceful (world s) p) = Some ESRCH ->
  returned (killProcess p s) = Some (mkKillResult true (Some already_dead))
  /\ trace (snd (killProcess p s)) = trace s ++ [EvKill p SIGTERM].
Proof.
  intros Hterm. rewrite killProcess_run. unfold returned, kill_run. simpl.
  destruct (graceful (world s) p) as [w1 r1]. simpl in Hterm. subst r1.
  split; reflexivity.
Qed.

(** The three branches of C2 on processes 10 (exits on SIGTERM), 11 (exits
    on SIGKILL only) and 12 (survives both). *)
Lemma killProcess_escalation_witness :
  (snd (@graceful Sim.posix demo_world 10) = None
   /\ snd (@first_probe Sim.posix demo_world 10) = Some ESRCH
   /\ returned (@killProcess Sim.posix 10 demo_posix)
      = Some (mkKillResult true (Some killed)))
  /\ (snd (@graceful Sim.posix demo_world 11) = None
      /\ snd (@second_probe Sim.posix demo_world 11) = Some ESRCH
      /\ returned (@killProcess Sim.posix 11 demo_posix)
         = Some (mkKillResult true (Some killed)))
  /\ (snd (@graceful Sim.posix demo_world 12) = None
      /\ snd (@second_probe Sim.posix demo_world 12) = None
      /\ returned (@killProcess Sim.posix 12 demo_posix)
         = Some (mkKillResult false (Some error))).
Proof.
  split; [|split].
  - split; [reflexivity|]. split; [reflexivity|].
    destruct (@killProcess_escalation Sim.posix demo_posix 10 eq_refl) as [H _].
    exact (proj1 (H eq_refl)).
  - split; [reflexivity|]. split; [reflexivity|].
    destruct (@killProcess_escalation Sim.posix demo_posix 11 eq_refl) as [_ [H _]].
    exact (proj1 (H eq_refl eq_refl eq_refl)).
  - split; [reflexivity|]. split; [reflexivity|].
    destruct (@killProcess_escalation Sim.posix demo_posix 12 eq_refl) as [_ [_ H]].
    exact (proj1 (H eq_refl eq_refl eq_refl)).
Defined.

(** C3 on process 14, which is not in the table. *)
Lemma killProcess_no_such_process_witness :
  snd (@graceful Sim.posix demo_world 14) = Some ESRCH
  /\ returned (@killProcess Sim.posix 14 demo_posix)
     = Some (mkKillResult true (Some already_dead))
  /\ trace (snd (@killProcess Sim.posix 14 demo_posix)) = [EvKill 14 SIGTERM].
Proof.
  split; [reflexivity|].
  exact (@killProcess_no_such_process Sim.posix demo_posix 14 eq_refl).
Defined.


(* ===================================================================== *)
(** ** Reclaiming one port *)
(* ===================================================================== *)

Section FreePort.

Context {os : OS}.

(** The Windows loop of [freePort] stops at the first line that names a
    process. *)
Lemma netstat_loop_first (prt : Z) (lines : list string) (s : State World) :
  for_of_return lines
    (fun line =>
       match netstat_line_pid prt line with
       | Some p =>
           killProcess p ;; console_log (MsgFreedPort prt p) ;; ret (Some true)
       | None => ret None
       end) s
  = match first_some (netstat_line_pid prt) lines with
    | Some p =>
        (killProcess p ;; console_log (MsgFreedPort prt p) ;; ret (Some true)) s
    | None => (Val None, s)
    end.
Proof.
  induction lines as [|line lines IH]; simpl; [reflexivity|].
  destruct (netstat_line_pid prt line) as [p|].
  - unfold bind. rewrite killProcess_run. reflexivity.
  - unfold bind at 1. simpl. exact IH.
Qed.

(** What one call of [freePort] does, read off the answer to the lookup
    and the answers to the signals. *)
Lemma freePort_run (prt : Z) (s : State World) :
  freePort prt s =
  match os_exec (world s) (lookup_command prt) with
  | (w, None) =>
      (Val false,
       mkState (MCP_PROCESS_PATTERNS s) (MCP_PORTS s) w
               (trace s ++ [EvExec (lookup_command prt)]))
  | (w, Some out) =>
      match freePort_target prt out with
      | None =>
          (Val true,
           mkState (MCP_PROCESS_PATTERNS s) (MCP_PORTS s) w
                   (trace s ++ [EvExec (lookup_command prt)]))
      | Some p =>
          (Val true,
           mkState (MCP_PROCESS_PATTERNS s) (MCP_PORTS s)
                   (snd (fst (kill_run w p)))
                   (trace s ++ EvExec (lookup_command prt)
                      :: snd (kill_run w p) ++ [EvLog (MsgFreedPort prt p)]))
      end
  end.
Proof.
  unfold freePort, lookup_command, freePort_target.
  destruct is_win32.
  - unfold try_catch, bind at 1. unfold bind at 1. unfold execAsync. simpl.
    destruct (os_exec (world s) (netstat_command prt)) as [w [out|]]; simpl;
      [|reflexivity].
    rewrite netstat_loop_first.
    destruct (first_some (netstat_line_pid prt) (JS.split JS.LF (JS.trim out)))
      as [p|]; [|reflexivity].
    unfold bind. rewrite killProcess_run. unfold console_log, ret. simpl.
    unfold emit. simpl. trace_norm. reflexivity.
  - unfold try_catch, bind at 1. unfold bind at 1. unfold execAsync. simpl.
    destruct (os_exec (world s) (lsof_command prt)) as [w [out|]]; simpl;
      [|reflexivity].
    destruct (JS.truthy (JS.at_index (JS.split JS.LF (JS.trim out)) 0));
      [|reflexivity].
    destruct (JS.parseInt (JS.at_index (JS.split JS.LF (JS.trim out)) 0))
      as [p|]; [|reflexivity].
    unfold bind. rewrite killProcess_run. unfold console_log, ret. simpl.
    unfold emit. simpl. trace_norm. reflexivity.
Qed.

End FreePort.

(** *** What the scanner reads off the same output *)

Lemma trimStart_head (s : string) (c : ascii) (r : string) :
  JS.trimStart s = String c r -> JS.is_ws c = false.
Proof.
  induction s as [|a s IH]; simpl; [discriminate|].
  destruct (JS.is_ws a) eqn:E; [exact IH|].
  intros H. inversion H. subst. exact E.
Qed.

(** A string that parses as a number is not blank. *)
Lemma parseInt_not_blank (s : string) (q : Z) :
  JS.parseInt s = Some q -> JS.truthy (JS.trim s) = true.
Proof.
  unfold JS.parseInt, JS.trim.
  destruct (JS.trimStart s) as [|c r] eqn:E.
  - simpl. discriminate.
  - intros _. apply trimStart_head in E. simpl. rewrite E. reflexivity.
Qed.

Lemma pid_lines_pushes_flat (nm : string) (prt : option Z) (out : string)
      (acc : list ProcessInfo) :
  pid_lines_pushes nm prt out acc
  = acc ++ flat_map (fun l => match JS.parseInt l with
                              | Some p => [mkProcessInfo p nm prt]
                              | None => []
                              end)
                    (filter (fun p => JS.truthy (JS.trim p))
                            (JS.split JS.LF (JS.trim out))).
Proof.
  unfold pid_lines_pushes.
  generalize (filter (fun p => JS.truthy (JS.trim p)) (JS.split JS.LF (JS.trim out))).
  intros l. revert acc.
  induction l as [|x l IH]; intros acc; simpl.
  - rewrite app_nil_r. reflexivity.
  - rewrite IH. destruct (JS.parseInt x); unfold push; simpl;
      [rewrite <- app_assoc|]; reflexivity.
Qed.

Lemma netstat_pushes_flat (prt : Z) (out : string) (acc : list ProcessInfo) :
  netstat_pushes prt out acc
  = acc ++ flat_map (fun l => match netstat_line_pid prt l with
                              | Some p =>
                                  [mkProcessInfo p ("port:" ++ JS.toString prt)%string
                                                 (Some prt)]
                              | None => []
                              end)
                    (JS.split JS.LF (JS.trim out)).
Proof.
  unfold netstat_pushes.
  generalize (JS.split JS.LF (JS.trim out)). intros l. revert acc.
  induction l as [|x l IH]; intros acc; simpl.
  - rewrite app_nil_r. reflexivity.
  - rewrite IH. destruct (netstat_line_pid prt x); unfold push; simpl;
      [rewrite <- app_assoc|]; reflexivity.
Qed.

(** The process [freePort] picks is the first one the scanner would report
    for the same output. *)
Lemma freePort_target_first_reported {os : OS} (prt : Z) (out : string) (q : Z) :
  freePort_target prt out = Some q -> hd_error (reported_pids prt out) = Some q.
Proof.
  unfold freePort_target, reported_pids. destruct is_win32.
  - rewrite netstat_pushes_flat. simpl.
    generalize (JS.split JS.LF (JS.trim out)). intros l.
    induction l as [|x l IH]; simpl; [discriminate|].
    destruct (netstat_line_pid prt x) as [p|]; simpl.
    + intros H. inversion H. reflexivity.
    + exact IH.
  - rewrite pid_lines_pushes_flat. unfold JS.at_index. simpl.
    destruct (JS.split JS.LF (JS.trim out)) as [|l0 rest]; simpl; [discriminate|].
    destruct (JS.truthy l0); [|discriminate].
    intros H. rewrite (parseInt_not_blank l0 q H). simpl. rewrite H. reflexivity.
Qed.

(** Every run of [killProcess] starts with SIGTERM to its process. *)
Lemma kill_run_starts {os : OS} (w : World) (p : Z) :
  exists rest, snd (kill_run w p) = EvKill p SIGTERM :: rest.
Proof.
  unfold kill_run.
  destruct (graceful w p) as [w1 [c|]];
    [|destruct (first_probe w p) as [w2 [c|]];
      [|destruct (forced w p) as [w3 [c|]];
        [|destruct (second_probe w p) as [w4 [c|]]]]];
    eexists; reflexivity.
Qed.

(** On Windows [freePort] picks the first process the scanner reads off
    the output; on POSIX it does when the first line of the output is a
    number, as every line [lsof -t] prints is. *)
Lemma first_reported_is_target {os : OS} (prt : Z) (out : string) (p : Z) :
  hd_error (reported_pids prt out) = Some p ->
  is_win32 = true \/ JS.parseInt (first_line out) <> None ->
  freePort_target prt out = Some p.
Proof.
  intros Hhd Hcase.
  destruct is_win32 eqn:Hwin.
  - clear Hcase. revert Hhd. unfold reported_pids, freePort_target. rewrite Hwin.
    rewrite netstat_pushes_flat. simpl.
    generalize (JS.split JS.LF (JS.trim out)). intros l.
    induction l as [|x l IH]; simpl; [discriminate|].
    destruct (netstat_line_pid prt x) as [q|]; simpl.
    + intros H. inversion H. reflexivity.
    + exact IH.
  - destruct Hcase as [Hc|Hparse]; [discriminate|].
    destruct (JS.parseInt (first_line out)) as [q|] eqn:Hq; [|congruence].
    assert (Ht : freePort_target prt out = Some q).
    { unfold freePort_target. rewrite Hwin. fold (first_line out).
      destruct (first_line out) as [|c r] eqn:Hl; [discriminate Hq|].
      simpl. exact Hq. }
    pose proof (freePort_target_first_reported prt out q Ht) as Hhd'.
    rewrite Hhd in Hhd'. inversion Hhd'. subst. exact Ht.
Qed.

(** C9.  One call of [freePort] signals at most one process.  When the
    lookup answers and [freePort] reads a process identifier off its
    output, that process is passed to [killProcess]: the events of the
    call are the lookup, one run of [killProcess] on it, starting with
    its SIGTERM, and the console line.  Every signal of the call goes to
    that one process, which is the first identifier the scanner reads off
    the same output; and the first identifier the scanner reads is the
    one [freePort] picks, on Windows always and on POSIX when the first
    line of the output is a number.  The identifiers reported after it
    get no signal. *)
Theorem freePort_signals_first_reported_only {os : OS} (prt : Z) (s : State World) :
  exists evs,
    trace (snd (freePort prt s)) = trace s ++ evs
    /\ (forall q sig,
           In (EvKill q sig) evs ->
           exists out,
             snd (os_exec (world s) (lookup_command prt)) = Some out
             /\ hd_error (reported_pids prt out) = Some q)
    /\ (forall q q' sig sig',
           In (EvKill q sig) evs -> In (EvKill q' sig') evs -> q = q')
    /\ (forall out p,
           snd (os_exec (world s) (lookup_command prt)) = Some out ->
           freePort_target prt out = Some p ->
           evs = EvExec (lookup_command prt)
                   :: snd (kill_run (fst (os_exec (world s) (lookup_command prt))) p)
                   ++ [EvLog (MsgFreedPort prt p)]
           /\ In (EvKill p SIGTERM) evs)
    /\ (forall out p,
           hd_error (reported_pids prt out) = Some p ->
           is_win32 = true \/ JS.parseInt (first_line out) <> None ->
           freePort_target prt out = Some p).
Proof.
  rewrite freePort_run.
  destruct (os_exec (world s) (lookup_command prt)) as [w [out|]] eqn:Hexec.
  - destruct (freePort_target prt out) as [p|] eqn:Htarget.
    + assert (Hev : forall q sig,
                 In (EvKill q sig)
                    (EvExec (lookup_command prt)
                       :: snd (kill_run w p) ++ [EvLog (MsgFreedPort prt p)]) ->
                 q = p).
      { intros q sig [H|H]; [discriminate|].
        apply in_app_or in H. destruct H as [H|[H|[]]]; [|discriminate].
        exact (kill_run_targets _ _ _ _ H). }
      eexists. split; [reflexivity|]. split; [|split; [|split]].
      * intros q sig H. apply Hev in H. subst q. exists out. split; [reflexivity|].
        apply freePort_target_first_reported. exact Htarget.
      * intros q q' sig sig' H H'. apply Hev in H. apply Hev in H'. congruence.
      * intros out' p' Hout Ht. simpl in Hout. inversion Hout. subst out'.
        rewrite Htarget in Ht. inversion Ht. subst p'. simpl.
        split; [reflexivity|].
        destruct (kill_run_starts w p) as [rest Hrest]. rewrite Hrest.
        right. left. reflexivity.
      * intros out' p' Hhd Hcase. exact (first_reported_is_target prt out' p' Hhd Hcase).
    + exists [EvExec (lookup_command prt)]. split; [reflexivity|].
      split; [|split; [|split]].
      * intros q sig [H|[]]. discriminate.
      * intros q q' sig sig' [H|[]]. discriminate.
      * intros out' p' Hout Ht. simpl in Hout. inversion Hout. subst out'.
        rewrite Htarget in Ht. discriminate.
      * intros out' p' Hhd Hcase. exact (first_reported_is_target prt out' p' Hhd Hcase).
  - exists [EvExec (lookup_command prt)]. split; [reflexivity|].
    split; [|split; [|split]].
    * intros q sig [H|[]]. discriminate.
    * intros q q' sig sig' [H|[]]. discriminate.
    * intros out' p' Hout Ht. simpl in Hout. discriminate.
    * intros out' p' Hhd Hcase. exact (first_reported_is_target prt out' p' Hhd Hcase).
Qed.

(** The lookup reports processes 11 and 10 on port 3002; 11 is passed
    to [killProcess] and 10 gets no signal. *)
Example freePort_two_listeners :
  signals (trace (snd (@freePort Sim.posix 3002 demo_posix)))
  = [(11, SIGTERM); (11, SIG0); (11, SIGKILL); (11, SIG0)]
  /\ @reported_pids Sim.posix 3002 (Sim.lines ["11"; "10"]%string) = [11; 10]
  /\ @freePort_target Sim.posix 3002 (Sim.lines ["11"; "10"]%string) = Some 11.
Proof. repeat split; reflexivity. Qed.

(** On POSIX [freePort] reads the first line only: when it is no number
    nothing is signalled, although the scanner skips it and reports the
    process of the next line. *)
Example freePort_first_line_only :
  @freePort_target Sim.posix 3002 (Sim.lines ["abc"; "12"]%string) = None
  /\ @reported_pids Sim.posix 3002 (Sim.lines ["abc"; "12"]%string) = [12].
Proof. split; reflexivity. Qed.

(** C10.  [freePort] neither reads nor writes the watched arrays: run on
    the same world with the same trace under two registration states, it
    returns the same value, leaves the same world and the same trace, and
    hands each state its arrays back; in particular registering the port
    first does not change what it returns. *)
Theorem freePort_ignores_registrations {os : OS} (prt : Z)
        (patterns1 patterns2 : list string) (ports1 ports2 : list Z)
        (w : World) (tr : list Event) :
  let r1 := freePort prt (mkState patterns1 ports1 w tr) in
  let r2 := freePort prt (mkState patterns2 ports2 w tr) in
  fst r1 = fst r2
  /\ world (snd r1) = world (snd r2)
  /\ trace (snd r1) = trace (snd r2)
  /\ MCP_PROCESS_PATTERNS (snd r1) = patterns1
  /\ MCP_PORTS (snd r1) = ports1
  /\ fst (freePort prt (snd (registerMcpPort prt (mkState patterns1 ports1 w tr))))
     = fst r1.
Proof.
  intros r1 r2. subst r1 r2.
  assert (Hreg : forall pats prts,
             fst (freePort prt (mkState pats prts w tr))
             = fst (freePort prt (mkState patterns1 ports1 w tr))).
  { intros pats prts. rewrite !freePort_run. simpl.
    destruct (os_exec w (lookup_command prt)) as [w' [out|]];
      [destruct (freePort_target prt out)|]; reflexivity. }
  split; [symmetry; apply Hreg|].
  assert (Hrest :
    world (snd (freePort prt (mkState patterns1 ports1 w tr)))
    = world (snd (freePort prt (mkState patterns2 ports2 w tr)))
    /\ trace (snd (freePort prt (mkState patterns1 ports1 w tr)))
       = trace (snd (freePort prt (mkState patterns2 ports2 w tr)))
    /\ MCP_PROCESS_PATTERNS (snd (freePort prt (mkState patterns1 ports1 w tr)))
       = patterns1
    /\ MCP_PORTS (snd (freePort prt (mkState patterns1 ports1 w tr))) = ports1).
  { rewrite !freePort_run. simpl.
    destruct (os_exec w (lookup_command prt)) as [w' [out|]];
      [destruct (freePort_target prt out)|]; simpl; repeat split; reflexivity. }
  destruct Hrest as [H1 [H2 [H3 H4]]]. repeat (split; [assumption|]).
  unfold registerMcpPort. simpl.
  destruct (negb (existsb (Z.eqb prt) ports1)); simpl; [apply Hreg|reflexivity].
Qed.

(** *** The value [freePort] returns, case by case *)

Lemma freePort_lookup_rejected {os : OS} (prt : Z) (s : State World) :
  snd (os_exec (world s) (lookup_command prt)) = None ->
  returned (freePort prt s) = Some false
  /\ trace (snd (freePort prt s)) = trace s ++ [EvExec (lookup_command prt)].
Proof.
  intros H. rewrite freePort_run.
  destruct (os_exec (world s) (lookup_command prt)) as [w r]. simpl in H. subst r.
  split; reflexivity.
Qed.

Lemma freePort_nothing_reported {os : OS} (prt : Z) (s : State World) (out : string) :
  snd (os_exec (world s) (lookup_command prt)) = Some out ->
  freePort_target prt out = None ->
  returned (freePort prt s) = Some true
  /\ trace (snd (freePort prt s)) = trace s ++ [EvExec (lookup_command prt)].
Proof.
  intros H Ht. rewrite freePort_run.
  destruct (os_exec (world s) (lookup_command prt)) as [w r]. simpl in H. subst r.
  rewrite Ht. split; reflexivity.
Qed.

(** Once a process is picked, the value is [true] whatever [killProcess]
    answered: its result is not looked at. *)
Lemma freePort_listener_picked {os : OS} (prt : Z) (s : State World) (out : string)
      (p : Z) :
  snd (os_exec (world s) (lookup_command prt)) = Some out ->
  freePort_target prt out = Some p ->
  returned (freePort prt s) = Some true.
Proof.
  intros H Ht. rewrite freePort_run.
  destruct (os_exec (world s) (lookup_command prt)) as [w r]. simpl in H. subst r.
  rewrite Ht. reflexivity.
Qed.

(** C1 on the code.  Port 3003 is held by process 12, which survives
    SIGTERM and SIGKILL: [killProcess] reports the failure, the process is
    still in the table afterwards, and [freePort] returns [true].  The
    lookup of port 3004 fails: no process was found, none was signalled,
    and [freePort] returns [false]. *)
Theorem freePort_result_not_termination_result :
  (@freePort_target Sim.posix 3003 "12" = Some 12
   /\ returned (@killProcess Sim.posix 12 demo_posix)
      = Some (mkKillResult false (Some error))
   /\ returned (@freePort Sim.posix 3003 demo_posix) = Some true
   /\ Sim.lookup_proc (world (snd (@freePort Sim.posix 3003 demo_posix))) 12
      = Some (Sim.mkProc 12 Sim.Immortal false))
  /\ (snd (@os_exec Sim.posix demo_world (@lookup_command Sim.posix 3004)) = None
      /\ returned (@freePort Sim.posix 3004 demo_posix) = Some false
      /\ signals (trace (snd (@freePort Sim.posix 3004 demo_posix))) = []).
Proof. repeat split; reflexivity. Qed.

(** C6 on the code.  On Windows nothing listens on port 3002, so the
    [findstr] of the lookup matches no line and the command fails: the
    scanner takes that as no process on the port, and [freePort] returns
    [false], having signalled nothing. *)
Theorem freePort_windows_free_port_false :
  snd (@os_exec Sim.windows demo_world (@lookup_command Sim.windows 3002)) = None
  /\ returned (@findProcessesOnMcpPorts Sim.windows demo_windows) = Some []
  /\ returned (@freePort Sim.windows 3002 demo_windows) = Some false
  /\ trace (snd (@freePort Sim.windows 3002 demo_windows))
     = [EvExec (netstat_command 3002)].
Proof. repeat split; reflexivity. Qed.

(** Where the lookup succeeds and names no process, as [lsof ... || true]
    does for a free port, [freePort] returns [true] at once. *)
Example freePort_posix_free_port :
  returned (@freePort Sim.posix 3005 demo_posix) = Some true
  /\ trace (snd (@freePort Sim.posix 3005 demo_posix)) = [EvExec (lsof_command 3005)].
Proof. split; reflexivity. Qed.

(* ===================================================================== *)
(** ** Registration *)
(* ===================================================================== *)

Lemma includes_port (prt : Z) (l : list Z) :
  existsb (Z.eqb prt) l = true <-> In prt l.
Proof.
  rewrite existsb_exists. split.
  - intros [x [Hin Hx]]. apply Z.eqb_eq in Hx. subst x. exact Hin.
  - intros H. exists prt. split; [exact H|apply Z.eqb_refl].
Qed.

Lemma includes_pattern (pattern : string) (l : list string) :
  existsb (String.eqb pattern) l = true <-> In pattern l.
Proof.
  rewrite existsb_exists. split.
  - intros [x [Hin Hx]]. apply String.eqb_eq in Hx. subst x. exact Hin.
  - intros H. exists pattern. split; [exact H|apply String.eqb_refl].
Qed.

Lemma count_after_push {A} (dec : forall x y : A, {x = y} + {x <> y})
      (l : list A) (v : A) (present : bool) :
  (present = true <-> In v l) ->
  count_occ dec (if negb present then push l v else l) v
  = Nat.max 1 (count_occ dec l v).
Proof.
  intros H. destruct present; cbn [negb].
  - assert (Hin : In v l) by (apply H; reflexivity).
    apply (count_occ_In dec) in Hin. lia.
  - assert (Hout : ~ In v l) by (intros Hin; apply H in Hin; discriminate).
    apply (count_occ_not_In dec) in Hout. unfold push.
    rewrite count_occ_app, Hout. simpl. destruct (dec v v); [reflexivity|congruence].
Qed.

(** C7.  Registering a port, or a pattern, a second time changes nothing:
    the state after two registrations is the state after one, the value
    occurs in its array as often as it did after the first call (once, when
    it was new), and the next sweep is the same. *)
Theorem registration_idempotent {os : OS} (s : State World) (prt : Z)
        (pattern : string) :
  let once := snd (registerMcpPort prt s) in
  let twice := snd (registerMcpPort prt once) in
  let once' := snd (registerMcpPattern pattern s) in
  let twice' := snd (registerMcpPattern pattern once') in
  twice = once
  /\ twice' = once'
  /\ count_occ Z.eq_dec (MCP_PORTS twice) prt
     = Nat.max 1 (count_occ Z.eq_dec (MCP_PORTS s) prt)
  /\ count_occ string_dec (MCP_PROCESS_PATTERNS twice') pattern
     = Nat.max 1 (count_occ string_dec (MCP_PROCESS_PATTERNS s) pattern)
  /\ cleanupOrphanedMcpProcesses twice = cleanupOrphanedMcpProcesses once
  /\ cleanupOrphanedMcpProcesses twice' = cleanupOrphanedMcpProcesses once'.
Proof.
  intros once twice once' twice'.
  assert (H1 : twice = once).
  { subst twice once. unfold registerMcpPort.
    destruct (existsb (Z.eqb prt) (MCP_PORTS s)) eqn:E; simpl.
    - rewrite E. reflexivity.
    - unfold push. rewrite existsb_app. simpl. rewrite Z.eqb_refl, orb_true_r.
      reflexivity. }
  assert (H2 : twice' = once').
  { subst twice' once'. unfold registerMcpPattern.
    destruct (existsb (String.eqb pattern) (MCP_PROCESS_PATTERNS s)) eqn:E; simpl.
    - rewrite E. reflexivity.
    - unfold push. rewrite existsb_app. simpl. rewrite String.eqb_refl, orb_true_r.
      reflexivity. }
  split; [exact H1|]. split; [exact H2|]. rewrite H1, H2.
  split; [|split; [|split; reflexivity]].
  - subst once. unfold registerMcpPort.
    rewrite <- (@count_after_push Z Z.eq_dec (MCP_PORTS s) prt _
                  (includes_port prt (MCP_PORTS s))).
    destruct (existsb (Z.eqb prt) (MCP_PORTS s)); reflexivity.
  - subst once'. unfold registerMcpPattern.
    rewrite <- (@count_after_push string string_dec (MCP_PROCESS_PATTERNS s)
                  pattern _ (includes_pattern pattern (MCP_PROCESS_PATTERNS s))).
    destruct (existsb (String.eqb pattern) (MCP_PROCESS_PATTERNS s)); reflexivity.
Qed.

Example register_twice :
  MCP_PORTS (snd (@registerMcpPort Sim.posix 8080
                    (snd (@registerMcpPort Sim.posix 8080 demo_posix))))
  = [3002; 8080]
  /\ MCP_PORTS (snd (@registerMcpPort Sim.posix 3002 demo_posix)) = [3002].
Proof. split; reflexivity. Qed.

(* ===================================================================== *)
(** ** States up to console lines *)
(* ===================================================================== *)

Section Console.

Context {os : OS}.

Lemma same_refl (s : State World) : same_but_console s s.
Proof. repeat split. Qed.

Lemma same_sym (s t : State World) : same_but_console s t -> same_but_console t s.
Proof. intros [H1 [H2 [H3 H4]]]. repeat split; congruence. Qed.

Lemma same_trans (s t u : State World) :
  same_but_console s t -> same_but_console t u -> same_but_console s u.
Proof.
  intros [H1 [H2 [H3 H4]]] [G1 [G2 [G3 G4]]]. repeat split; congruence.
Qed.

Lemma os_events_app (tr1 tr2 : list Event) :
  os_events (tr1 ++ tr2) = os_events tr1 ++ os_events tr2.
Proof. apply filter_app. Qed.

Lemma same_log (s : State World) (m : LogMsg) : same_but_console (emit (EvLog m) s) s.
Proof.
  repeat split. simpl. rewrite os_events_app. simpl. apply app_nil_r.
Qed.

Lemma same_warn (s : State World) (m : LogMsg) : same_but_console (emit (EvWarn m) s) s.
Proof.
  repeat split. simpl. rewrite os_events_app. simpl. apply app_nil_r.
Qed.

(** Appending the same events to both traces keeps two states alike. *)
Lemma same_append (s t : State World) (w : World) (evs : list Event) :
  same_but_console s t ->
  same_but_console
    (mkState (MCP_PROCESS_PATTERNS s) (MCP_PORTS s) w (trace s ++ evs))
    (mkState (MCP_PROCESS_PATTERNS t) (MCP_PORTS t) w (trace t ++ evs)).
Proof.
  intros [H1 [H2 [H3 H4]]]. repeat split; simpl; try assumption.
  rewrite !os_events_app. congruence.
Qed.

Lemma respects_ret {A} (a : A) : respects (ret a).
Proof. intros s t H. split; [reflexivity|exact H]. Qed.

Lemma respects_bind {A B} (m : M A) (k : A -> M B) :
  respects m -> (forall a, respects (k a)) -> respects (bind m k).
Proof.
  intros Hm Hk s t H. unfold bind.
  destruct (Hm s t H) as [Ho Hs].
  destruct (m s) as [[a|e] s']; destruct (m t) as [[a'|e'] t'];
    simpl in Ho; try discriminate; inversion Ho; subst.
  - apply Hk. exact Hs.
  - split; [reflexivity|exact Hs].
Qed.

Lemma respects_try_catch {A} (m : M A) (h : Exn -> M A) :
  respects m -> (forall e, respects (h e)) -> respects (try_catch m h).
Proof.
  intros Hm Hh s t H. unfold try_catch.
  destruct (Hm s t H) as [Ho Hs].
  destruct (m s) as [[a|e] s']; destruct (m t) as [[a'|e'] t'];
    simpl in Ho; try discriminate; inversion Ho; subst.
  - split; [reflexivity|exact Hs].
  - apply Hh. exact Hs.
Qed.

Lemma respects_execAsync (cmd : string) : respects (execAsync cmd).
Proof.
  intros s t H. unfold execAsync. simpl.
  assert (Hw : world s = world t) by apply H. rewrite Hw.
  destruct (os_exec (world t) cmd) as [w [out|]]; simpl;
    (split; [reflexivity|]); apply (same_append _ _ _ _ H).
Qed.

Lemma respects_console_log (m : LogMsg) : respects (console_log m).
Proof.
  intros s t H. split; [reflexivity|]. simpl.
  apply (same_trans _ _ _ (same_log s m)). apply (same_trans _ _ _ H).
  apply same_sym, same_log.
Qed.

Lemma respects_console_warn (m : LogMsg) : respects (console_warn m).
Proof.
  intros s t H. split; [reflexivity|]. simpl.
  apply (same_trans _ _ _ (same_warn s m)). apply (same_trans _ _ _ H).
  apply same_sym, same_warn.
Qed.

Lemma respects_killProcess (p : Z) : respects (killProcess p).
Proof.
  intros s t H. rewrite !killProcess_run. simpl.
  assert (Hw : world s = world t) by apply H. rewrite Hw.
  split; [reflexivity|]. apply (same_append _ _ _ _ H).
Qed.

Lemma for_of_respects {A B} (body : B -> A -> M B) :
  (forall acc x, respects (body acc x)) ->
  forall l acc s t, same_but_console s t ->
    fst (for_of l body acc s) = fst (for_of l body acc t)
    /\ same_but_console (snd (for_of l body acc s)) (snd (for_of l body acc t)).
Proof.
  intros Hb l. induction l as [|x l IH]; intros acc s t H; simpl.
  - split; [reflexivity|exact H].
  - destruct (Hb acc x s t H) as [Ho Hs].
    destruct (body acc x s) as [[a|e] s']; destruct (body acc x t) as [[a'|e'] t'];
      simpl in Ho; try discriminate; inversion Ho; subst.
    + apply IH. exact Hs.
    + split; [reflexivity|exact Hs].
Qed.

Lemma respects_for_of_catch {A B} (l : list A) (body : B -> A -> M B) (acc : B)
      (h : Exn -> M unit) :
  (forall acc x, respects (body acc x)) -> (forall e, respects (h e)) ->
  respects (for_of_catch l body acc h).
Proof.
  intros Hb Hh s t H. unfold for_of_catch.
  destruct (for_of_respects body Hb l acc s t H) as [Ho Hs].
  destruct (for_of l body acc s) as [[b [e|]] s'];
    destruct (for_of l body acc t) as [[b' [e'|]] t'];
    simpl in Ho; try discriminate; inversion Ho; subst.
  - apply respects_bind; [apply Hh|intros; apply respects_ret|exact Hs].
  - split; [reflexivity|exact Hs].
Qed.

(** One probe of the matcher or the scanner. *)
Lemma respects_probe (cmd : string) (f : string -> list ProcessInfo)
      (processes : list ProcessInfo) :
  respects (try_catch (stdout <- execAsync cmd ;; ret (f stdout))
                      (fun _ => ret processes)).
Proof.
  apply respects_try_catch.
  - apply respects_bind; [apply respects_execAsync|intros; apply respects_ret].
  - intros; apply respects_ret.
Qed.

Lemma respects_findMcpProcesses : respects findMcpProcesses.
Proof.
  intros s t H. unfold findMcpProcesses, bind, read_patterns.
  assert (Hp : MCP_PROCESS_PATTERNS s = MCP_PROCESS_PATTERNS t) by apply H.
  rewrite Hp.
  destruct is_win32;
    (apply respects_for_of_catch;
     [intros acc x; apply respects_probe
     |intros; apply respects_console_warn
     |exact H]).
Qed.

Lemma respects_findProcessesOnMcpPorts : respects findProcessesOnMcpPorts.
Proof.
  intros s t H. unfold findProcessesOnMcpPorts, bind, read_ports.
  assert (Hp : MCP_PORTS s = MCP_PORTS t) by apply H.
  rewrite Hp. apply respects_for_of_catch; [|intros; apply respects_console_warn|exact H].
  intros acc x. destruct is_win32; apply respects_probe.
Qed.

End Console.

(* ===================================================================== *)
(** ** Nothing is thrown to the caller *)
(* ===================================================================== *)

Section Totality.

Context {os : OS}.

Lemma total_ret {A} (a : A) : total (ret a).
Proof. intros s. exists a, s. reflexivity. Qed.

Lemma total_bind {A B} (m : M A) (k : A -> M B) :
  total m -> (forall a, total (k a)) -> total (bind m k).
Proof.
  intros Hm Hk s. unfold bind. destruct (Hm s) as [a [s' Ha]]. rewrite Ha.
  apply Hk.
Qed.


Lemma total_console_warn (m : LogMsg) : total (console_warn m).
Proof. intros s. eexists; eexists; reflexivity. Qed.

(** A loop inside a [try] whose handler returns never throws, whatever
    its body does. *)
Lemma total_for_of_catch {A B} (l : list A) (body : B -> A -> M B) (acc : B)
      (h : Exn -> M unit) :
  (forall e, total (h e)) -> total (for_of_catch l body acc h).
Proof.
  intros Hh s. unfold for_of_catch.
  destruct (for_of l body acc s) as [[b [e|]] s'].
  - apply total_bind; [apply Hh|intros; apply total_ret].
  - exists b, s'. reflexivity.
Qed.

Lemma total_findMcpProcesses : total findMcpProcesses.
Proof.
  intros s. unfold findMcpProcesses, bind, read_patterns.
  destruct is_win32; apply total_for_of_catch; intros e; apply total_console_warn.
Qed.

Lemma total_findProcessesOnMcpPorts : total findProcessesOnMcpPorts.
Proof.
  intros s. unfold findProcessesOnMcpPorts, bind, read_ports.
  apply total_for_of_catch. intros e. apply total_console_warn.
Qed.







End Totality.

(** *** A failed probe counts as an empty one *)











(** The probe for "mcp-remote" fails; the sweep still finds and
    terminates what the other probes report. *)
Example sweep_with_failing_probe :
  snd (@os_exec Sim.posix demo_world (pgrep_command "mcp-remote")) = None
  /\ returned (@cleanupOrphanedMcpProcesses Sim.posix demo_posix) = Some 2
  /\ signals (trace (snd (@cleanupOrphanedMcpProcesses Sim.posix demo_posix)))
     = [(10, SIGTERM); (10, SIG0);
        (11, SIGTERM); (11, SIG0); (11, SIGKILL); (11, SIG0)].
Proof. repeat split; reflexivity. Qed.

(* ===================================================================== *)
(** ** The sweep *)
(* ===================================================================== *)

Section Sweep.

Context {os : OS}.

(** The flag the loop tests is the classification the spec counts by. *)
Lemma success_counted (w : World) (p : Z) :
  success (fst (fst (kill_run w p))) = counted (fst (fst (kill_run w p))).
Proof. unfold counted. apply kill_run_success. Qed.

(** One turn of the termination loop: one [killProcess], one console
    line, and the counter goes up when the outcome counts. *)
Lemma kill_and_count_run (n : Z) (proc : ProcessInfo) (s : State World) :
  exists s',
    kill_and_count n proc s
    = (Val (n + (if counted (fst (fst (kill_run (world s) (pid proc))))
                 then 1 else 0)), s')
    /\ same_but_console s' (snd (killProcess (pid proc) s)).
Proof.
  unfold kill_and_count, bind. rewrite killProcess_run. simpl.
  rewrite <- success_counted.
  destruct (success (fst (fst (kill_run (world s) (pid proc))))).
  - destruct (reason (fst (fst (kill_run (world s) (pid proc))))) as [[]|];
      simpl; eexists; (split; [reflexivity|apply same_log]).
  - simpl. rewrite Z.add_0_r. eexists. split; [reflexivity|apply same_warn].
Qed.

(** The termination loop does what [terminate_all] does on the process
    identifiers of the handles, and adds to its counter the number of
    outcomes that count. *)
Lemma kill_loop_refines (l : list ProcessInfo) :
  forall n s t, same_but_console s t ->
    exists outs s' t',
      terminate_all (map pid l) t = (Val outs, t')
      /\ for_of l kill_and_count n s
         = ((n + Z.of_nat (length (filter counted outs)), None), s')
      /\ same_but_console s' t'.
Proof.
  induction l as [|proc l IH]; intros n s t H.
  - exists [], s, t. simpl. rewrite Z.add_0_r. repeat split; try reflexivity; apply H.
  - assert (Hw : world s = world t) by apply H.
    destruct (kill_and_count_run n proc s) as [s1 [Hk Hs1]].
    rewrite Hw in Hk.
    assert (Hs1t : same_but_console s1 (snd (killProcess (pid proc) t))).
    { apply (same_trans _ _ _ Hs1). apply respects_killProcess. exact H. }
    destruct (IH (n + (if counted (fst (fst (kill_run (world t) (pid proc))))
                       then 1 else 0))
                 s1 (snd (killProcess (pid proc) t)) Hs1t)
      as [outs [s' [t' [Ht [Hf Hs]]]]].
    exists (fst (fst (kill_run (world t) (pid proc))) :: outs), s', t'.
    split; [|split; [|exact Hs]].
    + simpl. unfold bind at 1. rewrite killProcess_run in *. simpl in *.
      unfold bind at 1. rewrite Ht. reflexivity.
    + simpl. rewrite Hk, Hf. simpl.
      destruct (counted (fst (fst (kill_run (world t) (pid proc))))); simpl length;
        f_equal; f_equal; lia.
Qed.

(** Listing the handles on the console changes nothing else. *)
Lemma entry_loop (l : list ProcessInfo) :
  forall s, exists s',
    for_of l (fun (_ : unit) proc => console_log (MsgEntry (pid proc) (name proc)))
           tt s
    = ((tt, None), s')
    /\ same_but_console s' s.
Proof.
  induction l as [|proc l IH]; intros s; simpl.
  - exists s. split; [reflexivity|apply same_refl].
  - destruct (IH (emit (EvLog (MsgEntry (pid proc) (name proc))) s)) as [s' [Hf Hs]].
    exists s'. split; [exact Hf|].
    apply (same_trans _ _ _ Hs). apply same_log.
Qed.

Lemma size_zero (m : NumMap.t) : (NumMap.size m =? 0) = true -> NumMap.keys m = [].
Proof.
  unfold NumMap.size. destruct m; [reflexivity|]. simpl length.
  intros H. apply Z.eqb_eq in H. lia.
Qed.

(** The matcher and the scanner from two states that differ in console
    lines only. *)
Lemma discovery_respects (s t : State World) :
  same_but_console s t ->
  exists byName byPort s2 t2,
    discover s = (Val (byName, byPort), s2)
    /\ discover t = (Val (byName, byPort), t2)
    /\ same_but_console s2 t2.
Proof.
  intros H. unfold discover, bind.
  destruct (respects_findMcpProcesses s t H) as [Ho Hs].
  destruct (total_findMcpProcesses s) as [a [s1 Ha]].
  destruct (total_findMcpProcesses t) as [a' [t1 Ha']].
  rewrite Ha, Ha' in *. simpl in Ho, Hs. inversion Ho. subst a'.
  destruct (respects_findProcessesOnMcpPorts s1 t1 Hs) as [Ho2 Hs2].
  destruct (total_findProcessesOnMcpPorts s1) as [b [s2 Hb]].
  destruct (total_findProcessesOnMcpPorts t1) as [b' [t2 Hb']].
  rewrite Hb, Hb' in *. simpl in Ho2, Hs2. inversion Ho2. subst b'.
  exists a, b, s2, t2. split; [reflexivity|]. split; [reflexivity|exact Hs2].
Qed.

Lemma bind_val {A B} (m : M A) (k : A -> M B) (s : State World) (a : A)
      (s' : State World) :
  m s = (Val a, s') -> bind m k s = k a s'.
Proof. intros H. unfold bind. rewrite H. reflexivity. Qed.

Lemma discover_inv (s s2 : State World) (byName byPort : list ProcessInfo) :
  discover s = (Val (byName, byPort), s2) ->
  exists s1,
    findMcpProcesses s = (Val byName, s1)
    /\ findProcessesOnMcpPorts s1 = (Val byPort, s2).
Proof.
  unfold discover, bind.
  destruct (findMcpProcesses s) as [[a|e] s1] eqn:Ha; [|discriminate].
  destruct (findProcessesOnMcpPorts s1) as [[b|e] s2'] eqn:Hb; [|discriminate].
  unfold ret. intros H. inversion H. subst. exists s1. split; [reflexivity|exact Hb].
Qed.

Lemma cleanup_after_discovery (s s2 : State World) (byName byPort : list ProcessInfo) :
  discover (emit (EvLog MsgChecking) s) = (Val (byName, byPort), s2) ->
  cleanupOrphanedMcpProcesses s
  = (let allProcesses := dedupe (byName ++ byPort) in
     if NumMap.size allProcesses =? 0 then
       console_log MsgNoneFound ;; ret 0
     else
       console_log (MsgFound (NumMap.size allProcesses)) ;;
       for_each (NumMap.values allProcesses)
         (fun (_ : unit) proc => console_log (MsgEntry (pid proc) (name proc)))
         tt ;;
       killed_count <- for_each (NumMap.values allProcesses) kill_and_count 0 ;;
       console_log (MsgCleanedUp killed_count (NumMap.size allProcesses)) ;;
       ret killed_count) s2.
Proof.
  intros H. destruct (discover_inv _ _ _ _ H) as [s1 [Ha Hb]].
  unfold cleanupOrphanedMcpProcesses.
  rewrite (bind_val (console_log MsgChecking) _ s tt (emit (EvLog MsgChecking) s)
                    eq_refl).
  rewrite (bind_val findMcpProcesses _ _ _ _ Ha).
  rewrite (bind_val findProcessesOnMcpPorts _ _ _ _ Hb). reflexivity.
Qed.

Lemma sweep_targets_after_discovery (t t2 : State World)
      (byName byPort : list ProcessInfo) :
  discover t = (Val (byName, byPort), t2) ->
  sweep_targets t = (Val (NumMap.keys (dedupe (byName ++ byPort))), t2).
Proof.
  intros H. destruct (discover_inv _ _ _ _ H) as [t1 [Ha Hb]].
  unfold sweep_targets.
  rewrite (bind_val findMcpProcesses _ _ _ _ Ha).
  rewrite (bind_val findProcessesOnMcpPorts _ _ _ _ Hb). reflexivity.
Qed.

Lemma for_each_val {A B} (l : list A) (body : B -> A -> M B) (acc b : B)
      (s s' : State World) :
  for_of l body acc s = ((b, None), s') -> for_each l body acc s = (Val b, s').
Proof. intros H. unfold for_each. rewrite H. reflexivity. Qed.

(** After discovery, the sweep and the spec's words agree. *)
Lemma sweep_body_refines (byName byPort : list ProcessInfo) (s2 t2 : State World) :
  same_but_console s2 t2 ->
  exists n s' t',
    (let allProcesses := dedupe (byName ++ byPort) in
     if NumMap.size allProcesses =? 0 then
       console_log MsgNoneFound ;; ret 0
     else
       console_log (MsgFound (NumMap.size allProcesses)) ;;
       for_each (NumMap.values allProcesses)
         (fun (_ : unit) proc => console_log (MsgEntry (pid proc) (name proc)))
         tt ;;
       killed_count <- for_each (NumMap.values allProcesses) kill_and_count 0 ;;
       console_log (MsgCleanedUp killed_count (NumMap.size allProcesses)) ;;
       ret killed_count) s2 = (Val n, s')
    /\ (outcomes <- terminate_all (NumMap.keys (dedupe (byName ++ byPort))) ;;
        ret (Z.of_nat (length (filter counted outcomes)))) t2 = (Val n, t')
    /\ same_but_console s' t'.
Proof.
  intros Hs. cbv zeta.
  destruct (NumMap.size (dedupe (byName ++ byPort)) =? 0) eqn:Hsize.
  - rewrite (size_zero _ Hsize).
    exists 0, (emit (EvLog MsgNoneFound) s2), t2.
    split; [reflexivity|]. split; [reflexivity|].
    apply (same_trans _ _ _ (same_log s2 _)). exact Hs.
  - destruct (entry_loop (NumMap.values (dedupe (byName ++ byPort)))
                (emit (EvLog (MsgFound (NumMap.size (dedupe (byName ++ byPort))))) s2))
      as [s3 [Hentry Hs3]].
    assert (Hs3t : same_but_console s3 t2).
    { apply (same_trans _ _ _ Hs3). apply (same_trans _ _ _ (same_log s2 _)).
      exact Hs. }
    destruct (kill_loop_refines (NumMap.values (dedupe (byName ++ byPort))) 0 s3 t2 Hs3t)
      as [outs [s' [t' [Ht [Hf Hs']]]]].
    rewrite dedupe_values_pid in Ht.
    exists (0 + Z.of_nat (length (filter counted outs))),
           (emit (EvLog (MsgCleanedUp (0 + Z.of_nat (length (filter counted outs)))
                                      (NumMap.size (dedupe (byName ++ byPort))))) s'),
           t'.
    split; [|split].
    + rewrite (bind_val (console_log (MsgFound _)) _ s2 tt _ eq_refl).
      rewrite (bind_val _ _ _ tt s3 (for_each_val _ _ _ _ _ _ Hentry)).
      rewrite (bind_val _ _ _ _ s' (for_each_val _ _ _ _ _ _ Hf)).
      reflexivity.
    + rewrite (bind_val _ _ _ _ t' Ht). reflexivity.
    + apply (same_trans _ _ _ (same_log s' _)). exact Hs'.
Qed.

End Sweep.

(** The sweep does what the spec's words say: it returns the value
    [sweep_spec] returns and leaves the same arrays, the same world and
    the same operating-system events in the same order; the process
    identifiers [sweep_spec] terminates hold no duplicate. *)
Lemma cleanup_refines_sweep_spec {os : OS} (s : State World) :
  fst (cleanupOrphanedMcpProcesses s) = fst (sweep_spec s)
  /\ same_but_console (snd (cleanupOrphanedMcpProcesses s)) (snd (sweep_spec s))
  /\ match returned (sweep_targets s) with
     | Some pids => NoDup pids
     | None => False
     end.
Proof.
  destruct (discovery_respects (emit (EvLog MsgChecking) s) s (same_log s MsgChecking))
    as [byName [byPort [s2 [t2 [Hd1 [Hd2 Hs]]]]]].
  destruct (sweep_body_refines byName byPort s2 t2 Hs) as [n [s' [t' [Hc [Hp Hs']]]]].
  pose proof (sweep_targets_after_discovery s t2 byName byPort Hd2) as Htargets.
  rewrite (cleanup_after_discovery s s2 byName byPort Hd1), Hc.
  unfold sweep_spec. rewrite (bind_val sweep_targets _ _ _ _ Htargets), Hp.
  rewrite Htargets.
  split; [reflexivity|]. split; [exact Hs'|apply dedupe_keys_NoDup].
Qed.

(** Processes 10 and 11 match the pattern "mcp-server" and hold port 3002:
    four raw handles, two entries, two terminations, and the sweep
    returns 2. *)
Example sweep_counts_once :
  returned (@discover Sim.posix demo_posix)
  = Some ([mkProcessInfo 10 "mcp-server" None; mkProcessInfo 11 "mcp-server" None],
          [mkProcessInfo 11 "port:3002" (Some 3002);
           mkProcessInfo 10 "port:3002" (Some 3002)])
  /\ returned (@sweep_targets Sim.posix demo_posix) = Some [10; 11]
  /\ returned (@cleanupOrphanedMcpProcesses Sim.posix demo_posix) = Some 2.
Proof. repeat split; reflexivity. Qed.

(** A process that is gone before the sweep reaches it counts as a
    success: 14 is reported by the lookup and is not in the table. *)
Example sweep_counts_already_dead :
  let w := Sim.mkSim [] [(lsof_command 3002, Some "14"%string)] in
  returned (@killProcess Sim.posix 14 (@initial_state Sim.posix w))
  = Some (mkKillResult true (Some already_dead))
  /\ returned (@cleanupOrphanedMcpProcesses Sim.posix (@initial_state Sim.posix w))
     = Some 1.
Proof. split; reflexivity. Qed.

(* ===================================================================== *)
(** ** Further properties: the terminator *)
(* ===================================================================== *)

(** X1.  When SIGTERM is refused with a code other than ESRCH,
    [killProcess] reports a failure, with reason [permission_denied] for
    EPERM and [error] for any other code, and sends nothing more: no
    probe, no SIGKILL, no wait. *)
Theorem killProcess_refused {os : OS} (s : State World) (p : Z) (c : ErrCode) :
  snd (graceful (world s) p) = Some c ->
  c <> ESRCH ->
  returned (killProcess p s)
  = Some (mkKillResult false
            (Some (match c with EPERM => permission_denied | _ => error end)))
  /\ trace (snd (killProcess p s)) = trace s ++ [EvKill p SIGTERM].
Proof.
  intros Hterm Hc. rewrite killProcess_run. unfold returned, kill_run. simpl.
  destruct (graceful (world s) p) as [w1 r1]. simpl in Hterm. subst r1.
  destruct c; [congruence| |]; split; reflexivity.
Qed.

(** X1 on process 13, which belongs to another user. *)
Lemma killProcess_refused_witness :
  snd (@graceful Sim.posix demo_world 13) = Some EPERM
  /\ returned (@killProcess Sim.posix 13 demo_posix)
     = Some (mkKillResult false (Some permission_denied))
  /\ trace (snd (@killProcess Sim.posix 13 demo_posix)) = [EvKill 13 SIGTERM].
Proof.
  split; [reflexivity|].
  apply (@killProcess_refused Sim.posix demo_posix 13 EPERM eq_refl).
  discriminate.
Defined.

(** X2.  [killProcess] reports a failure in two cases only: SIGTERM was
    refused with a code other than ESRCH, or SIGTERM, the first probe,
    SIGKILL and the second probe were all delivered.  Any error of a
    probe or of SIGKILL, whatever its code, counts as the process being
    gone. *)
Theorem killProcess_fails_iff {os : OS} (s : State World) (p : Z) :
  exists r,
    returned (killProcess p s) = Some r
    /\ (success r = false <->
        (exists c, snd (graceful (world s) p) = Some c /\ c <> ESRCH)
        \/ (snd (graceful (world s) p) = None
            /\ snd (first_probe (world s) p) = None
            /\ snd (forced (world s) p) = None
            /\ snd (second_probe (world s) p) = None)).
Proof.
  rewrite killProcess_run. unfold returned. simpl. eexists. split; [reflexivity|].
  unfold kill_run.
  destruct (graceful (world s) p) as [w1 [c|]]; simpl.
  - split.
    + intros H. left. exists c. split; [reflexivity|].
      intros ->. discriminate H.
    + intros [[c' [Hc Hn]]|[Hc _]]; [|discriminate].
      inversion Hc; subst. destruct c'; [congruence|reflexivity|reflexivity].
  - destruct (first_probe (world s) p) as [w2 [c|]]; simpl.
    + split; [discriminate|].
      intros [[c' [Hc _]]|[_ [Hc _]]]; discriminate.
    + destruct (forced (world s) p) as [w3 [c|]]; simpl.
      * split; [discriminate|].
        intros [[c' [Hc _]]|[_ [_ [Hc _]]]]; discriminate.
      * destruct (second_probe (world s) p) as [w4 [c|]]; simpl.
        -- split; [discriminate|].
           intros [[c' [Hc _]]|[_ [_ [_ Hc]]]]; discriminate.
        -- split; [|reflexivity]. intros _. right. repeat split.
Qed.

(** X3.  The result of [killProcess] always carries a reason, and it is a
    success exactly when the reason is [killed] or [already_dead]. *)
Theorem killProcess_result_wellformed {os : OS} (s : State World) (p : Z) :
  exists r,
    returned (killProcess p s) = Some r
    /\ reason r <> None
    /\ (success r = true <->
        reason r = Some killed \/ reason r = Some already_dead).
Proof.
  rewrite killProcess_run. unfold returned. simpl. eexists. split; [reflexivity|].
  unfold kill_run.
  destruct (graceful (world s) p) as [w1 [c|]];
    [destruct c
    |destruct (first_probe (world s) p) as [w2 [c|]];
     [|destruct (forced (world s) p) as [w3 [c|]];
       [|destruct (second_probe (world s) p) as [w4 [c|]]]]];
    simpl; (split; [discriminate|]); split; intros H;
    try reflexivity; try discriminate; try (destruct H; discriminate); auto.
Qed.

Lemma grows_refl {W} (s : State W) : grows_by s s [].
Proof. repeat split. symmetry. apply app_nil_r. Qed.

Lemma grows_trans {W} (s s1 s2 : State W) (e1 e2 : list Event) :
  grows_by s s1 e1 -> grows_by s1 s2 e2 -> grows_by s s2 (e1 ++ e2).
Proof.
  intros [H1 [H2 H3]] [G1 [G2 G3]]. repeat split; try congruence.
  rewrite G3, H3. symmetry. apply app_assoc.
Qed.

Lemma killProcess_grows {os : OS} (s : State World) (p : Z) :
  grows_by s (snd (killProcess p s)) (snd (kill_run (world s) p)).
Proof. rewrite killProcess_run. repeat split. Qed.

(** The events of a run are the first 1, 3, 4 or 6 of the escalation. *)
Lemma kill_run_prefix {os : OS} (w : World) (p : Z) :
  exists n, (n = 1 \/ n = 3 \/ n = 4 \/ n = 6)%nat
            /\ snd (kill_run w p) = firstn n (full_escalation p).
Proof.
  unfold kill_run.
  destruct (graceful w p) as [w1 [c|]];
    [exists 1%nat
    |destruct (first_probe w p) as [w2 [c|]];
     [exists 3%nat
     |destruct (forced w p) as [w3 [c|]];
      [exists 4%nat
      |destruct (second_probe w p) as [w4 [c|]]; exists 6%nat]]];
    (split; [tauto|reflexivity]).
Qed.

(** X4.  One call of [killProcess] appends to the trace the first 1, 3, 4
    or 6 events of SIGTERM, wait 500, probe, SIGKILL, wait 200, probe on
    its own process identifier: it signals no other process, runs no
    command, waits 700 ms at most, sends SIGKILL only after a SIGTERM and
    a probe, and leaves the watched arrays as they are. *)
Theorem killProcess_bounded {os : OS} (s : State World) (p : Z) :
  exists evs,
    grows_by s (snd (killProcess p s)) evs
    /\ (exists n, (n = 1 \/ n = 3 \/ n = 4 \/ n = 6)%nat
                  /\ evs = firstn n (full_escalation p))
    /\ (forall q sig, In (EvKill q sig) evs -> q = p)
    /\ commands evs = []
    /\ 0 <= waited evs <= 700.
Proof.
  exists (snd (kill_run (world s) p)).
  split; [apply killProcess_grows|].
  split; [apply kill_run_prefix|].
  split; [apply kill_run_targets|].
  destruct (kill_run_prefix (world s) p) as [n [Hn He]]. rewrite He.
  destruct Hn as [Hn | [Hn | [Hn | Hn]]]; subst n; simpl; split; try reflexivity; lia.
Qed.

(* ===================================================================== *)
(** ** Further properties: discovery *)
(* ===================================================================== *)

Lemma wmic_pushes_flat (pattern out : string) (acc : list ProcessInfo) :
  wmic_pushes pattern out acc
  = acc ++ flat_map
             (fun line =>
                let parts := JS.split "," line in
                if (3 <=? length parts)%nat then
                  match JS.parseInt (JS.at_index parts 2) with
                  | Some p => [mkProcessInfo p pattern None]
                  | None => []
                  end
                else [])
             (filter (fun l => (JS.truthy (JS.trim l)
                                && negb (JS.includes "Node,Name,ProcessId" l))%bool)
                     (JS.split JS.LF (JS.trim out))).
Proof.
  unfold wmic_pushes.
  generalize (filter (fun l => (JS.truthy (JS.trim l)
                                && negb (JS.includes "Node,Name,ProcessId" l))%bool)
                     (JS.split JS.LF (JS.trim out))).
  intros l. revert acc.
  induction l as [|x l IH]; intros acc; cbn [fold_left flat_map].
  - rewrite app_nil_r. reflexivity.
  - rewrite IH. destruct (3 <=? length (JS.split "," x))%nat;
      [destruct (JS.parseInt (JS.at_index (JS.split "," x) 2))|];
      unfold push; try rewrite <- app_assoc; reflexivity.
Qed.

Lemma Forall_flat_map_intro {A B} (P : B -> Prop) (f : A -> list B) (l : list A) :
  (forall x, Forall P (f x)) -> Forall P (flat_map f l).
Proof.
  intros H. induction l as [|x l IH]; simpl; [constructor|].
  apply Forall_app. split; [apply H|exact IH].
Qed.

(** Every handle the WMIC branch pushes is labelled with the pattern. *)
Lemma wmic_pushes_named (pattern out : string) (acc : list ProcessInfo) :
  exists new,
    wmic_pushes pattern out acc = acc ++ new
    /\ Forall (fun h => name h = pattern /\ port h = None) new.
Proof.
  eexists. split; [apply wmic_pushes_flat|].
  apply Forall_flat_map_intro. intros x. cbv zeta.
  destruct (3 <=? length (JS.split "," x))%nat;
    [destruct (JS.parseInt (JS.at_index (JS.split "," x) 2))|];
    repeat constructor.
Qed.

Lemma pid_lines_pushes_named (nm : string) (prt : option Z) (out : string)
      (acc : list ProcessInfo) :
  exists new,
    pid_lines_pushes nm prt out acc = acc ++ new
    /\ Forall (fun h => name h = nm /\ port h = prt) new.
Proof.
  eexists. split; [apply pid_lines_pushes_flat|].
  apply Forall_flat_map_intro. intros x.
  destruct (JS.parseInt x); repeat constructor.
Qed.

(** A line of [netstat] never names process 0. *)
Lemma netstat_line_pid_nonzero (prt : Z) (line : string) (p : Z) :
  netstat_line_pid prt line = Some p -> p <> 0.
Proof.
  unfold netstat_line_pid.
  destruct ((5 <=? length (JS.split_ws (JS.trim line)))%nat
            && JS.includes (":" ++ JS.toString prt)
                           (JS.at_index (JS.split_ws (JS.trim line)) 1))%bool;
    [|discriminate].
  destruct (JS.parseInt (JS.at_index (JS.split_ws (JS.trim line)) 4)) as [q|];
    [|discriminate].
  destruct (q =? 0) eqn:E; simpl; [discriminate|].
  intros H. inversion H. subst. apply Z.eqb_neq. exact E.
Qed.

Lemma netstat_pushes_named (prt : Z) (out : string) (acc : list ProcessInfo) :
  exists new,
    netstat_pushes prt out acc = acc ++ new
    /\ Forall (fun h => name h = ("port:" ++ JS.toString prt)%string
                        /\ port h = Some prt /\ pid h <> 0) new.
Proof.
  eexists. split; [apply netstat_pushes_flat|].
  apply Forall_flat_map_intro. intros x.
  destruct (netstat_line_pid prt x) as [p|] eqn:E; repeat constructor.
  simpl. exact (netstat_line_pid_nonzero prt x p E).
Qed.

Section Discovery.

Context {os : OS}.

(** One probe: the command is run once; the handles are those the array
    held, or what the parser makes of the output. *)
Lemma probe_step (cmd : string) (f : string -> list ProcessInfo)
      (acc : list ProcessInfo) (s : State World) :
  exists r s',
    try_catch (stdout <- execAsync cmd ;; ret (f stdout)) (fun _ => ret acc) s
    = (Val r, s')
    /\ grows_by s s' [EvExec cmd]
    /\ (r = acc \/ exists out, r = f out).
Proof.
  unfold try_catch, bind, execAsync, ret. simpl.
  destruct (os_exec (world s) cmd) as [w [out|]]; simpl;
    eexists; eexists; (split; [reflexivity|]); (split; [repeat split|]).
  - right. exists out. reflexivity.
  - left. reflexivity.
Qed.

(** A loop each turn of which appends one event and keeps an invariant
    of the locals. *)
Lemma for_of_steps {A B} (body : B -> A -> M B) (ev : A -> Event)
      (Inv : B -> Prop) (l : list A) :
  (forall acc x s, In x l -> Inv acc ->
     exists acc' s', body acc x s = (Val acc', s')
                     /\ grows_by s s' [ev x] /\ Inv acc') ->
  forall acc s, Inv acc ->
    exists acc' s', for_of l body acc s = ((acc', None), s')
                    /\ grows_by s s' (map ev l) /\ Inv acc'.
Proof.
  induction l as [|x l IH]; intros Hstep acc s Hacc; simpl.
  - exists acc, s. split; [reflexivity|]. split; [apply grows_refl|exact Hacc].
  - destruct (Hstep acc x s (or_introl eq_refl) Hacc) as [acc1 [s1 [Hb [Hg Hi]]]].
    rewrite Hb.
    destruct (IH (fun a y t Hy => Hstep a y t (or_intror Hy)) acc1 s1 Hi)
      as [acc' [s' [Hf [Hg' Hi']]]].
    exists acc', s'. split; [exact Hf|]. split; [|exact Hi'].
    apply (grows_trans _ _ _ _ _ Hg Hg').
Qed.

(** What the matcher does and what it returns. *)
Lemma findMcpProcesses_run (s : State World) :
  exists handles s',
    findMcpProcesses s = (Val handles, s')
    /\ grows_by s s'
         (map (fun pattern => EvExec (match_command pattern)) (MCP_PROCESS_PATTERNS s))
    /\ Forall (fun h => In (name h) (MCP_PROCESS_PATTERNS s) /\ port h = None) handles.
Proof.
  unfold findMcpProcesses, match_command.
  rewrite (bind_val read_patterns _ s (MCP_PROCESS_PATTERNS s) s eq_refl).
  unfold for_of_catch.
  destruct is_win32.
  - destruct (for_of_steps
                (fun processes pattern =>
                   try_catch
                     (stdout <- execAsync (wmic_command pattern) ;;
                      ret (wmic_pushes pattern stdout processes))
                     (fun _ => ret processes))
                (fun pattern => EvExec (wmic_command pattern))
                (Forall (fun h => In (name h) (MCP_PROCESS_PATTERNS s) /\ port h = None))
                (MCP_PROCESS_PATTERNS s)) with (acc := @nil ProcessInfo) (s := s)
      as [acc' [s' [Hf [Hg Hi]]]].
    + intros acc x t Hx Hacc.
      destruct (probe_step (wmic_command x) (fun out => wmic_pushes x out acc) acc t)
        as [r [t' [Hr [Hg [->|[out ->]]]]]];
        exists r, t' || (eexists; eexists); (split; [exact Hr|]);
        (split; [exact Hg|]); [exact Hacc|].
      destruct (wmic_pushes_named x out acc) as [new [-> Hnew]].
      apply Forall_app. split; [exact Hacc|].
      apply (Forall_impl _ (P := fun h => name h = x /\ port h = None));
        [|exact Hnew].
      intros h [Hn Hp]. rewrite Hn. split; assumption.
    + constructor.
    + rewrite Hf. exists acc', s'. split; [reflexivity|]. split; assumption.
  - destruct (for_of_steps
                (fun processes pattern =>
                   try_catch
                     (stdout <- execAsync (pgrep_command pattern) ;;
                      ret (pid_lines_pushes pattern None stdout processes))
                     (fun _ => ret processes))
                (fun pattern => EvExec (pgrep_command pattern))
                (Forall (fun h => In (name h) (MCP_PROCESS_PATTERNS s) /\ port h = None))
                (MCP_PROCESS_PATTERNS s)) with (acc := @nil ProcessInfo) (s := s)
      as [acc' [s' [Hf [Hg Hi]]]].
    + intros acc x t Hx Hacc.
      destruct (probe_step (pgrep_command x)
                           (fun out => pid_lines_pushes x None out acc) acc t)
        as [r [t' [Hr [Hg [->|[out ->]]]]]];
        (eexists; eexists); (split; [exact Hr|]);
        (split; [exact Hg|]); [exact Hacc|].
      destruct (pid_lines_pushes_named x None out acc) as [new [-> Hnew]].
      apply Forall_app. split; [exact Hacc|].
      apply (Forall_impl _ (P := fun h => name h = x /\ port h = None));
        [|exact Hnew].
      intros h [Hn Hp]. rewrite Hn. split; assumption.
    + constructor.
    + rewrite Hf. exists acc', s'. split; [reflexivity|]. split; assumption.
Qed.

(** What the scanner does and what it returns. *)
Lemma findProcessesOnMcpPorts_run (s : State World) :
  exists handles s',
    findProcessesOnMcpPorts s = (Val handles, s')
    /\ grows_by s s' (map (fun prt => EvExec (lookup_command prt)) (MCP_PORTS s))
    /\ Forall (fun h => exists prt,
                  In prt (MCP_PORTS s)
                  /\ port h = Some prt
                  /\ name h = ("port:" ++ JS.toString prt)%string
                  /\ (is_win32 = true -> pid h <> 0)) handles.
Proof.
  unfold findProcessesOnMcpPorts.
  rewrite (bind_val read_ports _ s (MCP_PORTS s) s eq_refl).
  unfold for_of_catch.
  destruct (for_of_steps
              (fun processes prt =>
                 if is_win32 then
                   try_catch
                     (stdout <- execAsync (netstat_command prt) ;;
                      ret (netstat_pushes prt stdout processes))
                     (fun _ => ret processes)
                 else
                   try_catch
                     (stdout <- execAsync (lsof_command prt) ;;
                      ret (pid_lines_pushes ("port:" ++ JS.toString prt) (Some prt)
                                            stdout processes))
                     (fun _ => ret processes))
              (fun prt => EvExec (lookup_command prt))
              (Forall (fun h => exists prt,
                         In prt (MCP_PORTS s)
                         /\ port h = Some prt
                         /\ name h = ("port:" ++ JS.toString prt)%string
                         /\ (is_win32 = true -> pid h <> 0)))
              (MCP_PORTS s)) with (acc := @nil ProcessInfo) (s := s)
    as [acc' [s' [Hf [Hg Hi]]]].
  - intros acc x t Hx Hacc. unfold lookup_command.
    destruct is_win32 eqn:Hwin.
    + destruct (probe_step (netstat_command x) (fun out => netstat_pushes x out acc) acc t)
        as [r [t' [Hr [Hg [->|[out ->]]]]]];
        (eexists; eexists); (split; [exact Hr|]);
        (split; [exact Hg|]); [exact Hacc|].
      destruct (netstat_pushes_named x out acc) as [new [-> Hnew]].
      apply Forall_app. split; [exact Hacc|].
      apply (Forall_impl _ (P := fun h => name h = ("port:" ++ JS.toString x)%string
                                          /\ port h = Some x /\ pid h <> 0));
        [|exact Hnew].
      intros h [Hn [Hp Hz]]. exists x.
      split; [exact Hx|]. split; [exact Hp|]. split; [exact Hn|].
      intros _. exact Hz.
    + destruct (probe_step (lsof_command x)
                  (fun out => pid_lines_pushes ("port:" ++ JS.toString x) (Some x)
                                               out acc) acc t)
        as [r [t' [Hr [Hg [->|[out ->]]]]]];
        (eexists; eexists); (split; [exact Hr|]);
        (split; [exact Hg|]); [exact Hacc|].
      destruct (pid_lines_pushes_named ("port:" ++ JS.toString x) (Some x) out acc)
        as [new [-> Hnew]].
      apply Forall_app. split; [exact Hacc|].
      apply (Forall_impl _ (P := fun h => name h = ("port:" ++ JS.toString x)%string
                                          /\ port h = Some x));
        [|exact Hnew].
      intros h [Hn Hp]. exists x.
      split; [exact Hx|]. split; [exact Hp|]. split; [exact Hn|]. discriminate.
  - constructor.
  - rewrite Hf. exists acc', s'. split; [reflexivity|]. split; assumption.
Qed.

End Discovery.

(** X5.  The matcher runs exactly one command for each watched pattern,
    in the order of the array, and does nothing else: it sends no
    signal, does not wait, writes nothing to the console, leaves the
    watched arrays as they are, and returns even when commands fail. *)
Theorem findMcpProcesses_read_only {os : OS} (s : State World) :
  exists handles s',
    findMcpProcesses s = (Val handles, s')
    /\ grows_by s s'
         (map (fun pattern => EvExec (match_command pattern)) (MCP_PROCESS_PATTERNS s)).
Proof.
  destruct (findMcpProcesses_run s) as [handles [s' [H [Hg _]]]].
  exists handles, s'. split; assumption.
Qed.

(** X6.  The scanner runs exactly one command for each watched port, the
    one [freePort] uses, in the order of the array, and does nothing
    else. *)
Theorem findProcessesOnMcpPorts_read_only {os : OS} (s : State World) :
  exists handles s',
    findProcessesOnMcpPorts s = (Val handles, s')
    /\ grows_by s s' (map (fun prt => EvExec (lookup_command prt)) (MCP_PORTS s)).
Proof.
  destruct (findProcessesOnMcpPorts_run s) as [handles [s' [H [Hg _]]]].
  exists handles, s'. split; assumption.
Qed.

(** X7.  Every handle the matcher returns is labelled with one of the
    watched patterns and carries no port. *)
Theorem findMcpProcesses_handles {os : OS} (s : State World) :
  exists handles,
    returned (findMcpProcesses s) = Some handles
    /\ Forall (fun h => In (name h) (MCP_PROCESS_PATTERNS s) /\ port h = None) handles.
Proof.
  destruct (findMcpProcesses_run s) as [handles [s' [H [_ Hh]]]].
  exists handles. unfold returned. rewrite H. split; [reflexivity|exact Hh].
Qed.

(** X8.  Every handle the scanner returns carries one of the watched
    ports and the label "port:" followed by that port; on Windows its
    process identifier is never 0. *)
Theorem findProcessesOnMcpPorts_handles {os : OS} (s : State World) :
  exists handles,
    returned (findProcessesOnMcpPorts s) = Some handles
    /\ Forall (fun h => exists prt,
                  In prt (MCP_PORTS s)
                  /\ port h = Some prt
                  /\ name h = ("port:" ++ JS.toString prt)%string
                  /\ (is_win32 = true -> pid h <> 0)) handles.
Proof.
  destruct (findProcessesOnMcpPorts_run s) as [handles [s' [H [_ Hh]]]].
  exists handles. unfold returned. rewrite H. split; [reflexivity|exact Hh].
Qed.

(* ===================================================================== *)
(** ** Further properties: the sweep *)
(* ===================================================================== *)

Lemma sigterms_app (q : Z) (x y : list Event) :
  sigterms q (x ++ y) = (sigterms q x + sigterms q y)%nat.
Proof. unfold sigterms. rewrite filter_app. apply length_app. Qed.

Lemma commands_app (x y : list Event) : commands (x ++ y) = commands x ++ commands y.
Proof. unfold commands. apply flat_map_app. Qed.

Lemma commands_execs {A} (cmd : A -> string) (l : list A) :
  commands (map (fun x => EvExec (cmd x)) l) = map cmd l.
Proof. induction l as [|x l IH]; simpl; [reflexivity|]. rewrite <- IH. reflexivity. Qed.

(** Console lines and commands are no signals. *)
Lemma silent_events (evs : list Event) :
  Forall (fun ev => match ev with EvKill _ _ => False | _ => True end) evs ->
  (forall q, sigterms q evs = 0%nat) /\ (forall q sig, ~ In (EvKill q sig) evs).
Proof.
  intros H. induction H as [|ev evs Hev Hevs [IH1 IH2]].
  - split; [reflexivity|]. intros q sig [].
  - split.
    + intros q. unfold sigterms in *. simpl. destruct ev; try contradiction; apply IH1.
    + intros q sig [Heq|Hin]; [subst ev; contradiction|]. exact (IH2 q sig Hin).
Qed.

Lemma silent_map {A} (f : A -> Event) (l : list A) :
  (forall x, match f x with EvKill _ _ => False | _ => True end) ->
  Forall (fun ev => match ev with EvKill _ _ => False | _ => True end) (map f l).
Proof.
  intros H. induction l as [|x l IH]; simpl; constructor; [apply H|exact IH].
Qed.

Lemma console_commands (evs : list Event) :
  Forall (fun ev => is_console ev = true) evs -> commands evs = [].
Proof.
  intros H. induction H as [|ev evs Hev Hevs IH]; [reflexivity|].
  simpl. destruct ev; try discriminate; exact IH.
Qed.

Lemma waited_app (x y : list Event) : waited (x ++ y) = waited x + waited y.
Proof.
  unfold waited. induction x as [|ev x IH]; simpl; [reflexivity|].
  destruct ev; rewrite IH; lia.
Qed.

(** Console lines and commands take no waiting. *)
Lemma waited_instant (evs : list Event) :
  Forall (fun ev => match ev with EvSleep _ => False | _ => True end) evs ->
  waited evs = 0.
Proof.
  intros H. induction H as [|ev evs Hev Hevs IH]; [reflexivity|].
  simpl. destruct ev; try contradiction; exact IH.
Qed.

Lemma instant_map {A} (f : A -> Event) (l : list A) :
  (forall x, match f x with EvSleep _ => False | _ => True end) ->
  Forall (fun ev => match ev with EvSleep _ => False | _ => True end) (map f l).
Proof.
  intros H. induction l as [|x l IH]; simpl; constructor; [apply H|exact IH].
Qed.

Section SweepRun.

Context {os : OS}.

Lemma kill_run_sigterms (w : World) (p q : Z) :
  sigterms q (snd (kill_run w p)) = if p =? q then 1%nat else 0%nat.
Proof.
  destruct (kill_run_prefix w p) as [n [Hn He]]. rewrite He.
  unfold sigterms.
  destruct Hn as [Hn | [Hn | [Hn | Hn]]]; subst n; simpl;
    destruct (p =? q); reflexivity.
Qed.

Lemma kill_run_commands (w : World) (p : Z) : commands (snd (kill_run w p)) = [].
Proof.
  destruct (kill_run_prefix w p) as [n [Hn He]]. rewrite He.
  destruct Hn as [Hn | [Hn | [Hn | Hn]]]; subst n; reflexivity.
Qed.

Lemma kill_run_waited (w : World) (p : Z) : 0 <= waited (snd (kill_run w p)) <= 700.
Proof.
  destruct (kill_run_prefix w p) as [n [Hn He]]. rewrite He.
  destruct Hn as [Hn | [Hn | [Hn | Hn]]]; subst n; simpl; lia.
Qed.

(** One turn of the termination loop: the events of one [killProcess],
    then one console line; the counter moves by 0 or 1. *)
Lemma kill_and_count_grows (n : Z) (proc : ProcessInfo) (s : State World) :
  exists n' s' line,
    kill_and_count n proc s = (Val n', s')
    /\ grows_by s s' (snd (kill_run (world s) (pid proc)) ++ [line])
    /\ is_console line = true
    /\ (n' = n \/ n' = n + 1).
Proof.
  unfold kill_and_count, bind. rewrite killProcess_run. simpl.
  destruct (success (fst (fst (kill_run (world s) (pid proc))))).
  - destruct (reason (fst (fst (kill_run (world s) (pid proc))))) as [[]|];
      simpl; eexists; eexists; eexists;
      (split; [reflexivity|]);
      (split; [repeat split; simpl; symmetry; apply app_assoc|]);
      (split; [reflexivity|right; reflexivity]).
  - simpl. eexists; eexists; eexists.
    split; [reflexivity|].
    split; [repeat split; simpl; symmetry; apply app_assoc|].
    split; [reflexivity|left; reflexivity].
Qed.

(** The termination loop: each handle gets the events of one
    [killProcess] on its process identifier, in order. *)
Lemma kill_loop_run (l : list ProcessInfo) :
  forall n s,
    exists n' s' evs,
      for_of l kill_and_count n s = ((n', None), s')
      /\ grows_by s s' evs
      /\ n <= n' <= n + Z.of_nat (length l)
      /\ (forall q, sigterms q evs = count_occ Z.eq_dec (map pid l) q)
      /\ (forall q sig, In (EvKill q sig) evs -> In q (map pid l))
      /\ commands evs = []
      /\ 0 <= waited evs <= 700 * Z.of_nat (length l).
Proof.
  induction l as [|proc l IH]; intros n s.
  - exists n, s, []. simpl. split; [reflexivity|]. split; [apply grows_refl|].
    split; [lia|]. split; [reflexivity|]. split; [intros q sig []|].
    split; [reflexivity|lia].
  - destruct (kill_and_count_grows n proc s) as [n1 [s1 [line [Hk [Hg [Hline Hn]]]]]].
    destruct (IH n1 s1) as [n' [s' [evs [Hf [Hg' [Hb [Hc [Hin [Hcmd Hwait]]]]]]]]].
    exists n', s', ((snd (kill_run (world s) (pid proc)) ++ [line]) ++ evs).
    split; [simpl; rewrite Hk; exact Hf|].
    split; [apply (grows_trans _ _ _ _ _ Hg Hg')|].
    split; [simpl length; lia|].
    assert (Hsil : Forall (fun ev => match ev with EvKill _ _ => False | _ => True end)
                          [line]).
    { constructor; [|constructor]. destruct line; try discriminate; exact I. }
    destruct (silent_events [line] Hsil) as [Hs1 Hs2].
    split; [|split; [|split]].
    + intros q. rewrite !sigterms_app, kill_run_sigterms, Hs1, Hc. simpl.
      destruct (Z.eq_dec (pid proc) q) as [E|E].
      * subst q. rewrite Z.eqb_refl. lia.
      * apply Z.eqb_neq in E. rewrite E. lia.
    + intros q sig H. apply in_app_or in H. destruct H as [H|H].
      * apply in_app_or in H. destruct H as [H|H].
        -- left. symmetry. exact (kill_run_targets _ _ _ _ H).
        -- exfalso. exact (Hs2 q sig H).
      * right. exact (Hin q sig H).
    + rewrite !commands_app, kill_run_commands, Hcmd.
      rewrite (console_commands [line]); [reflexivity|].
      constructor; [exact Hline|constructor].
    + rewrite !waited_app.
      pose proof (kill_run_waited (world s) (pid proc)) as Hw.
      assert (Hl0 : waited [line] = 0)
        by (destruct line; try discriminate; reflexivity).
      rewrite Hl0. simpl length. lia.
Qed.

(** The loop that lists the handles writes one console line each. *)
Lemma entry_loop_run (l : list ProcessInfo) (s : State World) :
  exists s',
    for_of l (fun (_ : unit) proc => console_log (MsgEntry (pid proc) (name proc)))
           tt s
    = ((tt, None), s')
    /\ grows_by s s' (map (fun proc => EvLog (MsgEntry (pid proc) (name proc))) l).
Proof.
  destruct (for_of_steps
              (fun (_ : unit) proc => console_log (MsgEntry (pid proc) (name proc)))
              (fun proc => EvLog (MsgEntry (pid proc) (name proc)))
              (fun _ => True) l) with (acc := tt) (s := s)
    as [[] [s' [Hf [Hg _]]]].
  - intros [] x t _ _. exists tt, (emit (EvLog (MsgEntry (pid x) (name x))) t).
    split; [reflexivity|]. split; [repeat split|exact I].
  - exact I.
  - exists s'. split; assumption.
Qed.

Lemma keys_count (procs : list ProcessInfo) (q : Z) :
  count_occ Z.eq_dec (NumMap.keys (dedupe procs)) q
  = if existsb (fun h => pid h =? q) procs then 1%nat else 0%nat.
Proof.
  pose proof (dedupe_keys_NoDup procs) as Hnd.
  pose proof (get_some_keys (dedupe procs) q) as Hk.
  rewrite dedupe_get in Hk.
  rewrite (NoDup_count_occ Z.eq_dec) in Hnd. specialize (Hnd q).
  destruct (existsb (fun h => pid h =? q) procs) eqn:E.
  - apply existsb_exists in E. destruct E as [h [Hin Hp]].
    destruct (find (fun h => pid h =? q) procs) eqn:F.
    + assert (Hi : In q (NumMap.keys (dedupe procs))) by (apply Hk; discriminate).
      apply (count_occ_In Z.eq_dec) in Hi. lia.
    + exfalso. apply (find_none _ _ F) in Hin. congruence.
  - destruct (find (fun h => pid h =? q) procs) eqn:F.
    + exfalso. apply find_some in F. destruct F as [Hin Hp].
      assert (Ht : existsb (fun h => pid h =? q) procs = true)
        by (apply existsb_exists; eauto).
      congruence.
    + apply (count_occ_not_In Z.eq_dec). intros Hi. apply Hk in Hi. congruence.
Qed.

Lemma keys_found (procs : list ProcessInfo) (q : Z) :
  In q (NumMap.keys (dedupe procs)) -> In q (map pid procs).
Proof.
  intros H. apply get_some_keys in H. rewrite dedupe_get in H.
  destruct (find (fun h => pid h =? q) procs) as [h|] eqn:F; [|congruence].
  apply find_some in F. destruct F as [Hin Hp]. apply Z.eqb_eq in Hp. subst q.
  apply in_map. exact Hin.
Qed.

End SweepRun.

Section SweepWhole.

Context {os : OS}.

Lemma discover_run (s : State World) :
  exists byName byPort s2,
    discover s = (Val (byName, byPort), s2)
    /\ grows_by s s2 (discovery_events s).
Proof.
  destruct (findMcpProcesses_run s) as [a [s1 [Ha [Hg1 _]]]].
  destruct (findProcessesOnMcpPorts_run s1) as [b [s2 [Hb [Hg2 _]]]].
  exists a, b, s2. split.
  - unfold discover.
    rewrite (bind_val findMcpProcesses _ _ _ _ Ha).
    rewrite (bind_val findProcessesOnMcpPorts _ _ _ _ Hb). reflexivity.
  - unfold discovery_events.
    assert (Hp : MCP_PORTS s1 = MCP_PORTS s) by apply Hg1.
    rewrite Hp in Hg2. apply (grows_trans _ _ _ _ _ Hg1 Hg2).
Qed.

Lemma dedupe_size_le (procs : list ProcessInfo) :
  NumMap.size (dedupe procs) <= Z.of_nat (length procs).
Proof.
  rewrite dedupe_unfold. unfold NumMap.size.
  assert (H : forall l m, (length (fold_left dedupe_step l m) <= length m + length l)%nat).
  { induction l as [|x l IH]; intros m; simpl; [lia|].
    specialize (IH (dedupe_step m x)).
    destruct (NumMap.has m (pid x)) eqn:E.
    - rewrite (step_seen _ _ E) in *. lia.
    - rewrite (step_fresh _ _ E) in *. rewrite length_app in IH. simpl in IH. lia. }
  specialize (H procs NumMap.empty). simpl in H. lia.
Qed.

(** What the sweep does once discovery has returned. *)
Lemma cleanup_body_run (byName byPort : list ProcessInfo) (s2 : State World) :
  exists n s' evs,
    (let allProcesses := dedupe (byName ++ byPort) in
     if NumMap.size allProcesses =? 0 then
       console_log MsgNoneFound ;; ret 0
     else
       console_log (MsgFound (NumMap.size allProcesses)) ;;
       for_each (NumMap.values allProcesses)
         (fun (_ : unit) proc => console_log (MsgEntry (pid proc) (name proc)))
         tt ;;
       killed_count <- for_each (NumMap.values allProcesses) kill_and_count 0 ;;
       console_log (MsgCleanedUp killed_count (NumMap.size allProcesses)) ;;
       ret killed_count) s2 = (Val n, s')
    /\ grows_by s2 s' evs
    /\ 0 <= n <= NumMap.size (dedupe (byName ++ byPort))
    /\ (forall q, sigterms q evs
                  = if existsb (fun h => pid h =? q) (byName ++ byPort)
                    then 1%nat else 0%nat)
    /\ (forall q sig, In (EvKill q sig) evs -> In q (map pid (byName ++ byPort)))
    /\ commands evs = []
    /\ 0 <= waited evs <= 700 * NumMap.size (dedupe (byName ++ byPort)).
Proof.
  cbv zeta.
  destruct (NumMap.size (dedupe (byName ++ byPort)) =? 0) eqn:Hsize.
  - exists 0, (emit (EvLog MsgNoneFound) s2), [EvLog MsgNoneFound].
    split; [reflexivity|]. split; [repeat split|].
    split; [apply Z.eqb_eq in Hsize; lia|].
    split; [|split; [|split; [reflexivity|]]].
    + intros q. rewrite <- keys_count, (size_zero _ Hsize). reflexivity.
    + intros q sig [H|[]]. discriminate.
    + apply Z.eqb_eq in Hsize. rewrite Hsize. simpl. lia.
  - set (l := NumMap.values (dedupe (byName ++ byPort))).
    destruct (entry_loop_run l
                (emit (EvLog (MsgFound (NumMap.size (dedupe (byName ++ byPort))))) s2))
      as [s3 [Hentry Hg3]].
    destruct (kill_loop_run l 0 s3)
      as [n [s4 [evs [Hf [Hg4 [Hb [Hc [Hin [Hcmd Hwait]]]]]]]]].
    exists n, (emit (EvLog (MsgCleanedUp n (NumMap.size (dedupe (byName ++ byPort))))) s4),
      (([EvLog (MsgFound (NumMap.size (dedupe (byName ++ byPort))))]
          ++ map (fun proc => EvLog (MsgEntry (pid proc) (name proc))) l)
         ++ evs ++ [EvLog (MsgCleanedUp n (NumMap.size (dedupe (byName ++ byPort))))]).
    assert (Hsil : Forall (fun ev => match ev with EvKill _ _ => False | _ => True end)
                     ([EvLog (MsgFound (NumMap.size (dedupe (byName ++ byPort))))]
                        ++ map (fun proc => EvLog (MsgEntry (pid proc) (name proc))) l)).
    { apply Forall_app. split; [repeat constructor|].
      apply silent_map. intros x. exact I. }
    destruct (silent_events _ Hsil) as [Hs1 Hs2].
    assert (Hl : map pid l = NumMap.keys (dedupe (byName ++ byPort)))
      by apply dedupe_values_pid.
    assert (Hlen : NumMap.size (dedupe (byName ++ byPort)) = Z.of_nat (length l)).
    { unfold NumMap.size, l, NumMap.values. rewrite length_map. reflexivity. }
    split; [|split; [|split; [|split; [|split; [|split]]]]].
    + rewrite (bind_val (console_log (MsgFound _)) _ s2 tt _ eq_refl).
      rewrite (bind_val _ _ _ tt s3 (for_each_val _ _ _ _ _ _ Hentry)).
      rewrite (bind_val _ _ _ _ s4 (for_each_val _ _ _ _ _ _ Hf)).
      reflexivity.
    + apply (grows_trans s2 s3 _).
      * apply (grows_trans s2
                 (emit (EvLog (MsgFound (NumMap.size (dedupe (byName ++ byPort))))) s2)
                 s3 [EvLog (MsgFound (NumMap.size (dedupe (byName ++ byPort))))] _);
          [repeat split|exact Hg3].
      * apply (grows_trans s3 s4 _ _ _ Hg4). repeat split.
    + split; [lia|]. unfold NumMap.size.
      replace (length (dedupe (byName ++ byPort))) with (length l)
        by (unfold l, NumMap.values; apply length_map).
      lia.
    + intros q. rewrite sigterms_app, Hs1, sigterms_app, Hc, Hl, keys_count.
      unfold sigterms. simpl. lia.
    + intros q sig H. apply in_app_or in H. destruct H as [H|H].
      * exfalso. exact (Hs2 q sig H).
      * apply in_app_or in H. destruct H as [H|[H|[]]]; [|discriminate].
        apply keys_found. rewrite <- Hl. exact (Hin q sig H).
    + rewrite !commands_app, Hcmd.
      rewrite (console_commands (map _ l)); [reflexivity|].
      clear. induction l; simpl; constructor; [reflexivity|assumption].
    + rewrite waited_app, (waited_instant (_ ++ map _ l)).
      * rewrite waited_app, Hlen.
        change (waited [EvLog (MsgCleanedUp n (Z.of_nat (length l)))]) with 0.
        lia.
      * apply Forall_app. split; [repeat constructor|].
        apply instant_map. intros x. exact I.
Qed.

(** One sweep from beginning to end. *)
Lemma cleanup_run (s : State World) :
  exists byName byPort n s' evs,
    discover s = (Val (byName, byPort), snd (discover s))
    /\ cleanupOrphanedMcpProcesses s = (Val n, s')
    /\ grows_by s s' evs
    /\ 0 <= n <= NumMap.size (dedupe (byName ++ byPort))
    /\ (forall q, sigterms q evs
                  = if existsb (fun h => pid h =? q) (byName ++ byPort)
                    then 1%nat else 0%nat)
    /\ (forall q sig, In (EvKill q sig) evs -> In q (map pid (byName ++ byPort)))
    /\ commands evs = commands (discovery_events s)
    /\ 0 <= waited evs <= 700 * NumMap.size (dedupe (byName ++ byPort)).
Proof.
  destruct (discovery_respects (emit (EvLog MsgChecking) s) s (same_log s MsgChecking))
    as [byName [byPort [s2 [t2 [Hd1 [Hd2 _]]]]]].
  destruct (discover_run (emit (EvLog MsgChecking) s)) as [a [b [s2' [Hd Hg]]]].
  rewrite Hd1 in Hd. inversion Hd. subst a b s2'. clear Hd.
  destruct (cleanup_body_run byName byPort s2)
    as [n [s' [evs [Hbody [Hg' [Hn [Hc [Hin [Hcmd Hwait]]]]]]]]].
  exists byName, byPort, n, s', (([EvLog MsgChecking] ++ discovery_events s) ++ evs).
  assert (Hsil : Forall (fun ev => match ev with EvKill _ _ => False | _ => True end)
                        ([EvLog MsgChecking] ++ discovery_events s)).
  { apply Forall_app. split; [repeat constructor|].
    unfold discovery_events. apply Forall_app.
    split; apply silent_map; intros x; exact I. }
  destruct (silent_events _ Hsil) as [Hs1 Hs2].
  split; [rewrite Hd2; reflexivity|].
  split; [rewrite (cleanup_after_discovery s s2 byName byPort Hd1); exact Hbody|].
  split.
  { apply (grows_trans s s2 s' _ _); [|exact Hg'].
    apply (grows_trans s (emit (EvLog MsgChecking) s) s2 [EvLog MsgChecking] _);
      [repeat split|exact Hg]. }
  split; [exact Hn|].
  split; [|split; [|split]].
  - intros q. rewrite sigterms_app, Hs1, Hc. reflexivity.
  - intros q sig H. apply in_app_or in H. destruct H as [H|H].
    + exfalso. exact (Hs2 q sig H).
    + exact (Hin q sig H).
  - rewrite !commands_app, Hcmd. simpl. apply app_nil_r.
  - rewrite waited_app, (waited_instant ([EvLog MsgChecking] ++ discovery_events s)).
    + lia.
    + apply Forall_app. split; [repeat constructor|].
      unfold discovery_events. apply Forall_app.
      split; apply instant_map; intros x; exact I.
Qed.

End SweepWhole.

(** Terminating a list of processes gives one outcome for each, and an
    outcome is a success exactly when it counts. *)
Lemma terminate_all_run {os : OS} (pids : list Z) :
  forall t, exists outcomes t',
    terminate_all pids t = (Val outcomes, t')
    /\ length outcomes = length pids
    /\ Forall (fun r => success r = counted r) outcomes.
Proof.
  induction pids as [|p pids IH]; intros t.
  - exists [], t. split; [reflexivity|]. split; [reflexivity|constructor].
  - destruct (IH (snd (killProcess p t))) as [outs [t' [Ht [Hlen Hall]]]].
    exists (fst (fst (kill_run (world t) p)) :: outs), t'.
    split; [|split].
    + simpl. unfold bind at 1. rewrite killProcess_run in *. simpl in *.
      unfold bind at 1. rewrite Ht. reflexivity.
    + simpl. rewrite Hlen. reflexivity.
    + constructor; [apply success_counted|exact Hall].
Qed.

(** C5.  In one sweep the processes terminated are exactly the process
    identifiers discovery reported, each of them once however many
    patterns and ports reported it: they are the targets of the
    deduplicated set, they are terminated one after the other, each is
    sent SIGTERM exactly once and no other process is.  The sweep returns
    the number of these terminations that succeeded, a termination being
    a success exactly when its reason is [killed] or [already_dead].  It
    returns what the spec's words ([sweep_spec]) return and leaves the
    same arrays, world and operating-system events in the same order. *)
Theorem cleanup_counts_successes {os : OS} (s : State World) :
  exists byName byPort pids outcomes evs,
    returned (discover s) = Some (byName, byPort)
    /\ returned (sweep_targets s) = Some pids
    /\ (forall q, count_occ Z.eq_dec pids q
                  = if existsb (fun h => pid h =? q) (byName ++ byPort)
                    then 1%nat else 0%nat)
    /\ returned ((targets <- sweep_targets ;; terminate_all targets) s)
       = Some outcomes
    /\ length outcomes = length pids
    /\ Forall (fun r => success r = counted r) outcomes
    /\ returned (cleanupOrphanedMcpProcesses s)
       = Some (Z.of_nat (length (filter counted outcomes)))
    /\ fst (cleanupOrphanedMcpProcesses s) = fst (sweep_spec s)
    /\ same_but_console (snd (cleanupOrphanedMcpProcesses s)) (snd (sweep_spec s))
    /\ grows_by s (snd (cleanupOrphanedMcpProcesses s)) evs
    /\ (forall q, sigterms q evs
                  = if existsb (fun h => pid h =? q) (byName ++ byPort)
                    then 1%nat else 0%nat)
    /\ (forall q sig, In (EvKill q sig) evs -> In q pids).
Proof.
  destruct (cleanup_run s)
    as [byName [byPort [n [s' [evs [Hd [Hc [Hg [_ [Hs [Hin _]]]]]]]]]]].
  pose proof (sweep_targets_after_discovery s _ byName byPort Hd) as Htargets.
  destruct (terminate_all_run (NumMap.keys (dedupe (byName ++ byPort)))
                              (snd (discover s)))
    as [outs [t' [Ht [Hlen Hall]]]].
  destruct (cleanup_refines_sweep_spec s) as [Hfst [Hsame _]].
  assert (Hspec : sweep_spec s
                  = (Val (Z.of_nat (length (filter counted outs))), t')).
  { unfold sweep_spec. rewrite (bind_val sweep_targets _ _ _ _ Htargets).
    rewrite (bind_val _ _ _ _ t' Ht). reflexivity. }
  exists byName, byPort, (NumMap.keys (dedupe (byName ++ byPort))), outs, evs.
  split; [unfold returned; rewrite Hd; reflexivity|].
  split; [unfold returned; rewrite Htargets; reflexivity|].
  split; [intros q; apply keys_count|].
  split; [unfold returned; rewrite (bind_val sweep_targets _ _ _ _ Htargets), Ht;
          reflexivity|].
  split; [exact Hlen|]. split; [exact Hall|].
  split.
  { unfold returned. rewrite Hfst, Hspec. reflexivity. }
  split; [exact Hfst|]. split; [exact Hsame|].
  rewrite Hc. split; [exact Hg|]. split; [exact Hs|].
  intros q sig H. apply Hin in H.
  apply (count_occ_In Z.eq_dec).
  rewrite keys_count.
  assert (He : existsb (fun h => pid h =? q) (byName ++ byPort) = true).
  { apply existsb_exists. apply in_map_iff in H. destruct H as [h [Hp Hh]].
    exists h. split; [exact Hh|]. apply Z.eqb_eq. exact Hp. }
  rewrite He. lia.
Qed.

(** X9.  In one sweep every process identifier that discovery reported
    is sent SIGTERM exactly once, however many patterns and ports
    reported it, and no signal of any kind goes to a process identifier
    that was not reported. *)
Theorem sweep_signals_reported_once {os : OS} (s : State World) :
  exists byName byPort evs,
    returned (discover s) = Some (byName, byPort)
    /\ grows_by s (snd (cleanupOrphanedMcpProcesses s)) evs
    /\ (forall q, sigterms q evs
                  = if existsb (fun h => pid h =? q) (byName ++ byPort)
                    then 1%nat else 0%nat)
    /\ (forall q sig, In (EvKill q sig) evs -> In q (map pid (byName ++ byPort))).
Proof.
  destruct (cleanup_run s)
    as [byName [byPort [n [s' [evs [Hd [Hc [Hg [_ [Hs [Hin _]]]]]]]]]]].
  exists byName, byPort, evs. unfold returned. rewrite Hd, Hc.
  split; [reflexivity|]. split; [exact Hg|]. split; assumption.
Qed.

(** X10.  The number the sweep returns lies between 0 and the number of
    distinct process identifiers discovery reported, which is at most the
    number of raw handles. *)
Theorem sweep_count_bounds {os : OS} (s : State World) :
  exists byName byPort n,
    returned (discover s) = Some (byName, byPort)
    /\ returned (cleanupOrphanedMcpProcesses s) = Some n
    /\ 0 <= n <= NumMap.size (dedupe (byName ++ byPort))
    /\ NumMap.size (dedupe (byName ++ byPort)) <= Z.of_nat (length (byName ++ byPort)).
Proof.
  destruct (cleanup_run s)
    as [byName [byPort [n [s' [evs [Hd [Hc [_ [Hn _]]]]]]]]].
  exists byName, byPort, n. unfold returned. rewrite Hd, Hc.
  split; [reflexivity|]. split; [reflexivity|]. split; [exact Hn|].
  apply dedupe_size_le.
Qed.

(** X11.  One sweep runs exactly one command for each watched pattern,
    then one for each watched port, in the order of the arrays, and
    leaves both arrays as they were. *)
Theorem sweep_commands {os : OS} (s : State World) :
  exists evs,
    grows_by s (snd (cleanupOrphanedMcpProcesses s)) evs
    /\ commands evs
       = map match_command (MCP_PROCESS_PATTERNS s)
         ++ map lookup_command (MCP_PORTS s).
Proof.
  destruct (cleanup_run s)
    as [byName [byPort [n [s' [evs [_ [Hc [Hg [_ [_ [_ [Hcmd _]]]]]]]]]]]].
  exists evs. rewrite Hc. split; [exact Hg|].
  rewrite Hcmd. unfold discovery_events. rewrite commands_app, !commands_execs.
  reflexivity.
Qed.

(** X12.  When discovery reports nothing, the sweep returns 0 and does
    nothing but write its two console lines around the commands of
    discovery: no signal is sent and there is no wait. *)
Theorem sweep_nothing_found {os : OS} (s : State World) :
  returned (discover s) = Some ([], []) ->
  returned (cleanupOrphanedMcpProcesses s) = Some 0
  /\ trace (snd (cleanupOrphanedMcpProcesses s))
     = trace s ++ EvLog MsgChecking :: discovery_events s ++ [EvLog MsgNoneFound].
Proof.
  intros Hnone.
  destruct (discovery_respects (emit (EvLog MsgChecking) s) s (same_log s MsgChecking))
    as [byName [byPort [s2 [t2 [Hd1 [Hd2 _]]]]]].
  unfold returned in Hnone. rewrite Hd2 in Hnone. simpl in Hnone.
  inversion Hnone. subst byName byPort. clear Hnone.
  destruct (discover_run (emit (EvLog MsgChecking) s)) as [a [b [s2' [Hd [_ [_ Hg]]]]]].
  rewrite Hd1 in Hd. inversion Hd. subst a b s2'. clear Hd.
  rewrite (cleanup_after_discovery s s2 [] [] Hd1). unfold returned. simpl.
  split; [reflexivity|]. rewrite Hg.
  change (discovery_events (emit (EvLog MsgChecking) s)) with (discovery_events s).
  simpl. rewrite <- !app_assoc. reflexivity.
Qed.

(** X12 on a machine where every command prints nothing. *)
Lemma sweep_nothing_found_witness :
  returned (@discover Sim.posix quiet_posix) = Some ([], [])
  /\ returned (@cleanupOrphanedMcpProcesses Sim.posix quiet_posix) = Some 0
  /\ signals (trace (snd (@cleanupOrphanedMcpProcesses Sim.posix quiet_posix))) = [].
Proof.
  split; [reflexivity|].
  destruct (@sweep_nothing_found Sim.posix quiet_posix eq_refl) as [H1 H2].
  split; [exact H1|]. rewrite H2. reflexivity.
Defined.

(* ===================================================================== *)
(** ** Further properties: registration *)
(* ===================================================================== *)

Section RegistrationInvariant.

Context {os : OS}.

(** Pushing a value that is not there. *)
Lemma push_fresh {A} (l : list A) (v : A) :
  ~ In v l -> NoDup l -> NoDup (push l v).
Proof.
  intros Hv Hl. unfold push. apply NoDup_app; [exact Hl|repeat constructor; simpl; tauto|].
  intros x Hx [Hy|[]]. subst x. exact (Hv Hx).
Qed.

(** One registration call: nothing is removed or reordered, at most the
    value is appended to its own array. *)
Lemma register_step (r : Registration) (s : State World) :
  exists s',
    register r s = (Val tt, s')
    /\ world s' = world s /\ trace s' = trace s
    /\ (exists added, MCP_PORTS s' = MCP_PORTS s ++ added)
    /\ (exists added, MCP_PROCESS_PATTERNS s' = MCP_PROCESS_PATTERNS s ++ added)
    /\ (NoDup (MCP_PORTS s) -> NoDup (MCP_PORTS s'))
    /\ (NoDup (MCP_PROCESS_PATTERNS s) -> NoDup (MCP_PROCESS_PATTERNS s'))
    /\ (forall prt, In prt (MCP_PORTS s')
                    <-> In prt (MCP_PORTS s) \/ r = RegisterPort prt)
    /\ (forall pattern, In pattern (MCP_PROCESS_PATTERNS s')
                        <-> In pattern (MCP_PROCESS_PATTERNS s)
                            \/ r = RegisterPattern pattern).
Proof.
  destruct r as [prt|pattern]; simpl.
  - unfold registerMcpPort.
    destruct (existsb (Z.eqb prt) (MCP_PORTS s)) eqn:E; simpl.
    + apply includes_port in E.
      exists s. repeat split; try tauto;
        try (exists []; symmetry; apply app_nil_r).
      * intros [H|H]; [exact H|]. inversion H. subst. exact E.
      * intros [H|H]; [exact H|discriminate].
    + assert (Hout : ~ In prt (MCP_PORTS s)).
      { intros H. apply includes_port in H. congruence. }
      eexists. split; [reflexivity|]. simpl.
      split; [reflexivity|]. split; [reflexivity|].
      split; [exists [prt]; reflexivity|].
      split; [exists []; symmetry; apply app_nil_r|].
      split; [apply push_fresh; exact Hout|].
      split; [tauto|]. split.
      * intros q. unfold push. rewrite in_app_iff. simpl. split.
        -- intros [H|[H|[]]]; [left; exact H|right; congruence].
        -- intros [H|H]; [left; exact H|right; left; congruence].
      * intros q. split; [tauto|]. intros [H|H]; [exact H|discriminate].
  - unfold registerMcpPattern.
    destruct (existsb (String.eqb pattern) (MCP_PROCESS_PATTERNS s)) eqn:E; simpl.
    + apply includes_pattern in E.
      exists s. repeat split; try tauto;
        try (exists []; symmetry; apply app_nil_r).
      * intros [H|H]; [exact H|discriminate].
      * intros [H|H]; [exact H|]. inversion H. subst. exact E.
    + assert (Hout : ~ In pattern (MCP_PROCESS_PATTERNS s)).
      { intros H. apply includes_pattern in H. congruence. }
      eexists. split; [reflexivity|]. simpl.
      split; [reflexivity|]. split; [reflexivity|].
      split; [exists []; symmetry; apply app_nil_r|].
      split; [exists [pattern]; reflexivity|].
      split; [tauto|].
      split; [apply push_fresh; exact Hout|]. split.
      * intros q. split; [tauto|]. intros [H|H]; [exact H|discriminate].
      * intros q. unfold push. rewrite in_app_iff. simpl. split.
        -- intros [H|[H|[]]]; [left; exact H|right; congruence].
        -- intros [H|H]; [left; exact H|right; left; congruence].
Qed.

Lemma register_all_inv (rs : list Registration) :
  forall s,
    exists s',
      register_all rs s = (Val tt, s')
      /\ world s' = world s /\ trace s' = trace s
      /\ (exists added, MCP_PORTS s' = MCP_PORTS s ++ added)
      /\ (exists added, MCP_PROCESS_PATTERNS s' = MCP_PROCESS_PATTERNS s ++ added)
      /\ (NoDup (MCP_PORTS s) -> NoDup (MCP_PORTS s'))
      /\ (NoDup (MCP_PROCESS_PATTERNS s) -> NoDup (MCP_PROCESS_PATTERNS s'))
      /\ (forall prt, In prt (MCP_PORTS s')
                      <-> In prt (MCP_PORTS s) \/ In (RegisterPort prt) rs)
      /\ (forall pattern, In pattern (MCP_PROCESS_PATTERNS s')
                          <-> In pattern (MCP_PROCESS_PATTERNS s)
                              \/ In (RegisterPattern pattern) rs).
Proof.
  induction rs as [|r rs IH]; intros s.
  - exists s. split; [reflexivity|]. split; [reflexivity|]. split; [reflexivity|].
    split; [exists []; symmetry; apply app_nil_r|].
    split; [exists []; symmetry; apply app_nil_r|].
    split; [tauto|]. split; [tauto|]. simpl. split; intros; tauto.
  - destruct (register_step r s)
      as [s1 [Hr [Hw [Ht [[a1 Ha1] [[b1 Hb1] [Hn1 [Hn1' [Hp1 Hq1]]]]]]]]].
    destruct (IH s1)
      as [s' [Hrs [Hw' [Ht' [[a2 Ha2] [[b2 Hb2] [Hn2 [Hn2' [Hp2 Hq2]]]]]]]]].
    exists s'. split.
    { simpl. rewrite (bind_val (register r) _ s tt s1 Hr). exact Hrs. }
    split; [congruence|]. split; [congruence|].
    split; [exists (a1 ++ a2); rewrite Ha2, Ha1; symmetry; apply app_assoc|].
    split; [exists (b1 ++ b2); rewrite Hb2, Hb1; symmetry; apply app_assoc|].
    split; [tauto|]. split; [tauto|]. split.
    + intros prt. rewrite Hp2, Hp1. simpl. split.
      * intros [[H|H]|H]; [left; exact H|right; left; exact H|right; right; exact H].
      * intros [H|[H|H]]; [left; left; exact H|left; right; exact H|right; exact H].
    + intros q. rewrite Hq2, Hq1. simpl. split.
      * intros [[H|H]|H]; [left; exact H|right; left; exact H|right; right; exact H].
      * intros [H|[H|H]]; [left; left; exact H|left; right; exact H|right; exact H].
Qed.

End RegistrationInvariant.

(** X13.  After any sequence of registration calls on the freshly loaded
    module, each watched array still begins with its built-in entries in
    their order, holds no value twice, and holds exactly the built-in
    values and the values that were registered; nothing else changed. *)
Theorem registrations_keep_arrays_sound {os : OS} (rs : list Registration) (w : World) :
  exists s,
    register_all rs (initial_state w) = (Val tt, s)
    /\ world s = w /\ trace s = []
    /\ (exists added, MCP_PORTS s = initial_ports ++ added)
    /\ (exists added, MCP_PROCESS_PATTERNS s = initial_patterns ++ added)
    /\ NoDup (MCP_PORTS s)
    /\ NoDup (MCP_PROCESS_PATTERNS s)
    /\ (forall prt, In prt (MCP_PORTS s)
                    <-> In prt initial_ports \/ In (RegisterPort prt) rs)
    /\ (forall pattern, In pattern (MCP_PROCESS_PATTERNS s)
                        <-> In pattern initial_patterns
                            \/ In (RegisterPattern pattern) rs).
Proof.
  destruct (register_all_inv rs (initial_state w))
    as [s [Hr [Hw [Ht [Ha [Hb [Hn [Hn' [Hp Hq]]]]]]]]].
  exists s. split; [exact Hr|]. split; [exact Hw|]. split; [exact Ht|].
  split; [exact Ha|]. split; [exact Hb|].
  split; [apply Hn; simpl; repeat constructor; simpl; tauto|].
  split; [|split; assumption].
  apply Hn'. simpl. unfold initial_patterns.
  repeat constructor; simpl; intuition discriminate.
Qed.

Example registrations_in_sequence :
  let s := snd (@register_all Sim.posix
                  [RegisterPort 8080; RegisterPattern "mcp-remote";
                   RegisterPort 3002; RegisterPattern "my-mcp"; RegisterPort 8080]
                  demo_posix) in
  MCP_PORTS s = [3002; 8080]
  /\ MCP_PROCESS_PATTERNS s
     = ["robloxstudio-mcp"; "mcp-remote"; "mcp-server"; "my-mcp"]%string.
Proof. split; reflexivity. Qed.

(* ===================================================================== *)
(** ** Further properties: reclaiming one port *)
(* ===================================================================== *)

(** X14.  [freePort] always returns a Boolean, and it returns [false]
    exactly when the lookup command fails; in that case the lookup is
    the only thing that happened. *)
Theorem freePort_false_iff_lookup_fails {os : OS} (prt : Z) (s : State World) :
  exists b,
    returned (freePort prt s) = Some b
    /\ (b = false <-> snd (os_exec (world s) (lookup_command prt)) = None)
    /\ (b = false ->
        trace (snd (freePort prt s)) = trace s ++ [EvExec (lookup_command prt)]).
Proof.
  rewrite freePort_run.
  destruct (os_exec (world s) (lookup_command prt)) as [w [out|]]; simpl.
  - destruct (freePort_target prt out); exists true;
      (split; [reflexivity|]); (split; [split; discriminate|discriminate]).
  - exists false. split; [reflexivity|]. split; [tauto|reflexivity].
Qed.

Lemma first_some_netstat_nonzero (prt : Z) (lines : list string) (p : Z) :
  first_some (netstat_line_pid prt) lines = Some p -> p <> 0.
Proof.
  induction lines as [|x l IH]; simpl; [discriminate|].
  destruct (netstat_line_pid prt x) as [q|] eqn:E; [|exact IH].
  intros H. inversion H. subst. exact (netstat_line_pid_nonzero prt x p E).
Qed.

(** X15.  On Windows [freePort] never signals process 0, under which
    [netstat] lists connections that belong to no process. *)
Theorem freePort_windows_never_signals_zero {os : OS} (prt : Z) (s : State World) :
  is_win32 = true ->
  exists evs,
    trace (snd (freePort prt s)) = trace s ++ evs
    /\ forall q sig, In (EvKill q sig) evs -> q <> 0.
Proof.
  intros Hwin. rewrite freePort_run.
  destruct (os_exec (world s) (lookup_command prt)) as [w [out|]].
  - destruct (freePort_target prt out) as [p|] eqn:Ht.
    + eexists. split; [reflexivity|].
      intros q sig [H|H]; [discriminate|].
      apply in_app_or in H. destruct H as [H|[H|[]]]; [|discriminate].
      apply kill_run_targets in H. subst q.
      unfold freePort_target in Ht. rewrite Hwin in Ht.
      exact (first_some_netstat_nonzero _ _ _ Ht).
    + eexists. split; [reflexivity|]. intros q sig [H|[]]. discriminate.
  - eexists. split; [reflexivity|]. intros q sig [H|[]]. discriminate.
Qed.

(** X15 on a lookup whose first matching line belongs to process 0. *)
Lemma freePort_windows_never_signals_zero_witness :
  @is_win32 Sim.windows = true
  /\ signals (trace (snd (@freePort Sim.windows 3002 time_wait_windows)))
     = [(44, SIGTERM); (44, SIG0)]
  /\ exists evs,
       trace (snd (@freePort Sim.windows 3002 time_wait_windows)) = [] ++ evs
       /\ forall q sig, In (EvKill q sig) evs -> q <> 0.
Proof.
  split; [reflexivity|]. split; [reflexivity|].
  exact (@freePort_windows_never_signals_zero Sim.windows 3002 time_wait_windows
           eq_refl).
Defined.

(* ===================================================================== *)
(** ** Further properties: the lines of [netstat] *)
(* ===================================================================== *)

Local Open Scope string_scope.

Lemma append_empty_r (s : string) : s ++ "" = s.
Proof. induction s as [|c s IH]; simpl; [reflexivity|]. rewrite IH. reflexivity. Qed.

Lemma is_empty_append (x y : string) :
  JS.is_empty y = false -> JS.is_empty (x ++ y) = false.
Proof. intros H. destruct x; [exact H|reflexivity]. Qed.

Lemma column_head (t : string) :
  column t = true ->
  exists c t', t = String c t' /\ JS.is_ws c = false
               /\ all_chars (fun c => negb (JS.is_ws c)) t' = true.
Proof.
  unfold column. destruct t as [|c t']; simpl; [discriminate|].
  intros H. apply andb_prop in H. destruct H as [Hc Ht].
  exists c, t'. split; [reflexivity|]. split; [|exact Ht].
  destruct (JS.is_ws c); [discriminate|reflexivity].
Qed.

Lemma column_chars (t : string) :
  column t = true -> all_chars (fun c => negb (JS.is_ws c)) t = true.
Proof. unfold column. intros H. apply andb_prop in H. apply H. Qed.

Lemma gap_head (g : string) :
  gap g = true -> exists c g', g = String c g' /\ JS.is_ws c = true /\ blank g' = true.
Proof.
  unfold gap, blank. destruct g as [|c g']; simpl; [discriminate|].
  intros H. apply andb_prop in H. destruct H as [Hc Hg].
  exists c, g'. repeat split; assumption.
Qed.

Lemma trimStart_blank (lead x : string) :
  blank lead = true -> JS.trimStart (lead ++ x) = JS.trimStart x.
Proof.
  unfold blank. induction lead as [|c l IH]; simpl; [reflexivity|].
  intros H. apply andb_prop in H. destruct H as [Hc Hl]. rewrite Hc. exact (IH Hl).
Qed.

Lemma trimStart_column (t x : string) :
  column t = true -> JS.trimStart (t ++ x) = t ++ x.
Proof.
  intros H. destruct (column_head t H) as [c [t' [-> [Hc _]]]]. simpl.
  rewrite Hc. reflexivity.
Qed.

Lemma trimEnd_blank (trail : string) : blank trail = true -> JS.trimEnd trail = "".
Proof.
  unfold blank. induction trail as [|c l IH]; simpl; [reflexivity|].
  intros H. apply andb_prop in H. destruct H as [Hc Hl].
  rewrite (IH Hl), Hc. reflexivity.
Qed.

Lemma trimEnd_chars (t trail : string) :
  all_chars (fun c => negb (JS.is_ws c)) t = true -> blank trail = true ->
  JS.trimEnd (t ++ trail) = t.
Proof.
  intros Ht Hb. induction t as [|c t IH]; simpl.
  - apply trimEnd_blank. exact Hb.
  - simpl in Ht. apply andb_prop in Ht. destruct Ht as [Hc Ht].
    rewrite (IH Ht). destruct (JS.is_ws c); [discriminate|reflexivity].
Qed.

(** Trimming the end of a string leaves alone what precedes a part that
    does not trim to nothing. *)
Lemma trimEnd_keeps (x y y' : string) :
  JS.trimEnd y = y' -> JS.is_empty y' = false ->
  JS.trimEnd (x ++ y) = x ++ y' /\ JS.is_empty (x ++ y') = false.
Proof.
  intros Hy He. split; [|apply is_empty_append; exact He].
  induction x as [|c x IH]; simpl; [exact Hy|].
  rewrite IH, (is_empty_append x y' He), andb_false_r. reflexivity.
Qed.

Lemma split_ws_nonempty (b : bool) (s : string) : JS.split_ws_from b s <> [].
Proof.
  revert b. induction s as [|c s IH]; intros b; simpl; [discriminate|].
  destruct (JS.is_ws c).
  - destruct b; [apply IH|discriminate].
  - destruct (JS.split_ws_from false s); discriminate.
Qed.

Lemma split_ws_chars (t rest : string) :
  all_chars (fun c => negb (JS.is_ws c)) t = true ->
  JS.split_ws_from false (t ++ rest)
  = match JS.split_ws_from false rest with
    | h :: tl => (t ++ h) :: tl
    | [] => [t]
    end.
Proof.
  induction t as [|c t IH]; simpl; intros H.
  - pose proof (split_ws_nonempty false rest) as Hne.
    destruct (JS.split_ws_from false rest); [congruence|reflexivity].
  - apply andb_prop in H. destruct H as [Hc Ht].
    destruct (JS.is_ws c); [discriminate|]. rewrite (IH Ht).
    destruct (JS.split_ws_from false rest); reflexivity.
Qed.

Lemma split_ws_run (g rest : string) :
  blank g = true -> JS.split_ws_from true (g ++ rest) = JS.split_ws_from true rest.
Proof.
  unfold blank. induction g as [|c g IH]; simpl; [reflexivity|].
  intros H. apply andb_prop in H. destruct H as [Hc Hg]. rewrite Hc. exact (IH Hg).
Qed.

Lemma split_ws_gap (g rest : string) :
  gap g = true ->
  JS.split_ws_from false (g ++ rest) = "" :: JS.split_ws_from true rest.
Proof.
  intros H. destruct (gap_head g H) as [c [g' [-> [Hc Hg]]]]. simpl.
  rewrite Hc, (split_ws_run g' rest Hg). reflexivity.
Qed.

Lemma split_ws_after_run (t rest : string) :
  column t = true ->
  JS.split_ws_from true (t ++ rest) = JS.split_ws_from false (t ++ rest).
Proof.
  intros H. destruct (column_head t H) as [c [t' [-> [Hc _]]]]. simpl.
  rewrite Hc. reflexivity.
Qed.

(** A column, a gap and what follows another column. *)
Lemma split_ws_column (t g t2 rest : string) :
  column t = true -> gap g = true -> column t2 = true ->
  JS.split_ws_from false (t ++ g ++ t2 ++ rest)
  = t :: JS.split_ws_from false (t2 ++ rest).
Proof.
  intros Ht Hg Ht2.
  rewrite (split_ws_chars t _ (column_chars t Ht)), (split_ws_gap g _ Hg).
  rewrite append_empty_r, (split_ws_after_run t2 rest Ht2). reflexivity.
Qed.

Lemma split_ws_last (t : string) :
  column t = true -> JS.split_ws_from false (t ++ "") = [t].
Proof.
  intros Ht. rewrite (split_ws_chars t _ (column_chars t Ht)). simpl.
  rewrite append_empty_r. reflexivity.
Qed.

Lemma column_not_empty (t : string) : column t = true -> JS.is_empty t = false.
Proof.
  intros H. destruct (column_head t H) as [c [t' [-> _]]]. reflexivity.
Qed.

(** X16.  On Windows a line of [netstat] is taken for a port as soon as
    it has five columns, the second contains ":" followed by the digits
    of the port anywhere in it, and the fifth is a number other than 0.
    The protocol, the foreign address and the state are not looked at,
    and the port is matched as a substring: a connection of port 3002 in
    any state is taken for port 300. *)
Theorem netstat_line_accepts (prt : Z)
        (lead proto g1 local g2 foreign g3 state g4 pidstr trail : string) (p : Z) :
  blank lead = true -> column proto = true -> gap g1 = true ->
  column local = true -> gap g2 = true -> column foreign = true ->
  gap g3 = true -> column state = true -> gap g4 = true ->
  column pidstr = true -> blank trail = true ->
  JS.includes (":" ++ JS.toString prt) local = true ->
  JS.parseInt pidstr = Some p ->
  p <> 0 ->
  netstat_line_pid prt
    (lead ++ proto ++ g1 ++ local ++ g2 ++ foreign ++ g3 ++ state ++ g4
          ++ pidstr ++ trail)
  = Some p.
Proof.
  intros Hlead Hproto Hg1 Hlocal Hg2 Hforeign Hg3 Hstate Hg4 Hpid Htrail
         Hinc Hparse Hp.
  assert (Htrim :
    JS.trim (lead ++ proto ++ g1 ++ local ++ g2 ++ foreign ++ g3 ++ state ++ g4
                  ++ pidstr ++ trail)
    = proto ++ g1 ++ local ++ g2 ++ foreign ++ g3 ++ state ++ g4 ++ pidstr ++ "").
  { unfold JS.trim.
    rewrite (trimStart_blank lead _ Hlead), (trimStart_column proto _ Hproto).
    pose proof (trimEnd_chars pidstr trail (column_chars pidstr Hpid) Htrail) as H0.
    rewrite <- (append_empty_r pidstr) in H0 at 2.
    assert (E0 : JS.is_empty (pidstr ++ "") = false)
      by (rewrite append_empty_r; apply column_not_empty; exact Hpid).
    destruct (trimEnd_keeps g4 _ _ H0 E0) as [H1 E1].
    destruct (trimEnd_keeps state _ _ H1 E1) as [H2 E2].
    destruct (trimEnd_keeps g3 _ _ H2 E2) as [H3 E3].
    destruct (trimEnd_keeps foreign _ _ H3 E3) as [H4 E4].
    destruct (trimEnd_keeps g2 _ _ H4 E4) as [H5 E5].
    destruct (trimEnd_keeps local _ _ H5 E5) as [H6 E6].
    destruct (trimEnd_keeps g1 _ _ H6 E6) as [H7 E7].
    destruct (trimEnd_keeps proto _ _ H7 E7) as [H8 _].
    exact H8. }
  unfold netstat_line_pid. rewrite Htrim. unfold JS.split_ws.
  rewrite (split_ws_column proto g1 local _ Hproto Hg1 Hlocal).
  rewrite (split_ws_column local g2 foreign _ Hlocal Hg2 Hforeign).
  rewrite (split_ws_column foreign g3 state _ Hforeign Hg3 Hstate).
  rewrite (split_ws_column state g4 pidstr _ Hstate Hg4 Hpid).
  rewrite (split_ws_last pidstr Hpid).
  unfold JS.at_index. cbn [length nth Nat.leb andb].
  rewrite Hinc, Hparse.
  apply Z.eqb_neq in Hp. rewrite Hp. reflexivity.
Qed.

(** X16 on a connection of port 3002 that is not listening, looked up
    for port 300. *)
Lemma netstat_line_accepts_witness :
  netstat_line_pid 300
    ("  " ++ "TCP" ++ "    " ++ "0.0.0.0:3002" ++ "    " ++ "10.0.0.7:51234"
          ++ "    " ++ "ESTABLISHED" ++ "    " ++ "77"
          ++ String (ascii_of_nat 13) "")
  = Some 77.
Proof.
  apply (netstat_line_accepts 300 "  " "TCP" "    " "0.0.0.0:3002" "    "
           "10.0.0.7:51234" "    " "ESTABLISHED" "    " "77"
           (String (ascii_of_nat 13) "") 77);
    try reflexivity.
  discriminate.
Defined.

Local Close Scope string_scope.

(* ===================================================================== *)
(** ** Further properties: deduplication *)
(* ===================================================================== *)

Lemma has_app (m m' : NumMap.t) (k : Z) :
  NumMap.has (m ++ m') k = (NumMap.has m k || NumMap.has m' k)%bool.
Proof. unfold NumMap.has. apply existsb_app. Qed.

(** Continuing the merge loop from a map only appends to it, and only
    handles whose process identifier the map did not hold. *)
Lemma fold_extends (b : list ProcessInfo) :
  forall m,
    exists tail,
      fold_left dedupe_step b m = m ++ tail
      /\ Forall (fun e => In (snd e) b /\ NumMap.has m (fst e) = false) tail.
Proof.
  induction b as [|x b IH]; intros m; simpl.
  - exists []. split; [symmetry; apply app_nil_r|constructor].
  - destruct (NumMap.has m (pid x)) eqn:E.
    + rewrite (step_seen _ _ E). destruct (IH m) as [tail [Ht Hf]].
      exists tail. split; [exact Ht|].
      apply (Forall_impl _ (P := fun e => In (snd e) b /\ NumMap.has m (fst e) = false));
        [|exact Hf].
      intros e [H1 H2]. split; [right; exact H1|exact H2].
    + rewrite (step_fresh _ _ E).
      destruct (IH (m ++ [(pid x, x)])) as [tail [Ht Hf]].
      exists ((pid x, x) :: tail). split.
      * rewrite Ht, <- app_assoc. reflexivity.
      * constructor; [split; [left; reflexivity|exact E]|].
        apply (Forall_impl _ (P := fun e => In (snd e) b
                                           /\ NumMap.has (m ++ [(pid x, x)]) (fst e) = false));
          [|exact Hf].
        intros e [H1 H2]. split; [right; exact H1|].
        rewrite has_app in H2. apply orb_false_iff in H2. apply H2.
Qed.

Lemma dedupe_has_false (a : list ProcessInfo) (k : Z) :
  NumMap.has (dedupe a) k = false -> ~ In k (map pid a).
Proof.
  intros H Hin. apply has_false_get in H. rewrite dedupe_get in H.
  apply in_map_iff in Hin. destruct Hin as [h [Hp Hh]].
  apply (find_none _ _ H) in Hh. apply Z.eqb_neq in Hh. congruence.
Qed.

(** X17.  The entries of the pattern matches come first in the merged
    map, exactly as they are when merged alone; the port matches only
    append entries, and only for process identifiers that no pattern
    match carries.  So the sweep terminates pattern matches first, and a
    port match never replaces the label of a pattern match. *)
Theorem dedupe_pattern_matches_first (byName byPort : list ProcessInfo) :
  exists tail,
    dedupe (byName ++ byPort) = dedupe byName ++ tail
    /\ Forall (fun e => In (snd e) byPort /\ ~ In (fst e) (map pid byName)) tail.
Proof.
  rewrite (dedupe_unfold (byName ++ byPort)), fold_left_app, <- dedupe_unfold.
  destruct (fold_extends byPort (dedupe byName)) as [tail [Ht Hf]].
  exists tail. split; [exact Ht|].
  apply (Forall_impl _ (P := fun e => In (snd e) byPort
                                      /\ NumMap.has (dedupe byName) (fst e) = false));
    [|exact Hf].
  intros e [H1 H2]. split; [exact H1|apply dedupe_has_false; exact H2].
Qed.

(** On handles with distinct process identifiers the merge keeps every
    handle, in order. *)
Lemma fold_distinct (l : list ProcessInfo) :
  forall m,
    NoDup (NumMap.keys m ++ map pid l) ->
    fold_left dedupe_step l m = m ++ map (fun h => (pid h, h)) l.
Proof.
  induction l as [|x l IH]; intros m Hnd; simpl.
  - symmetry. apply app_nil_r.
  - assert (Hfresh : NumMap.has m (pid x) = false).
    { destruct (NumMap.has m (pid x)) eqn:E; [|reflexivity].
      apply has_keys in E. apply NoDup_remove_2 in Hnd.
      exfalso. apply Hnd. apply in_or_app. left. exact E. }
    rewrite (step_fresh _ _ Hfresh), IH.
    + rewrite <- app_assoc. reflexivity.
    + unfold NumMap.keys in *. rewrite map_app, <- app_assoc. exact Hnd.
Qed.

(** X18.  Merging is idempotent: merging the handles of a merged map
    gives that map back, entries and order. *)
Theorem dedupe_idempotent (procs : list ProcessInfo) :
  dedupe (NumMap.values (dedupe procs)) = dedupe procs.
Proof.
  rewrite (dedupe_unfold (NumMap.values (dedupe procs))), fold_distinct.
  - simpl.
    assert (H : Forall (fun e => pid (snd e) = fst e) (dedupe procs)).
    { rewrite dedupe_unfold. apply fold_keyed. constructor. }
    unfold NumMap.values. rewrite map_map.
    induction H as [|e m He Hm IH]; simpl; [reflexivity|].
    rewrite He, IH. destruct e; reflexivity.
  - simpl. rewrite dedupe_values_pid. apply dedupe_keys_NoDup.
Qed.

(* ===================================================================== *)
(** ** Further properties: how long the operations take *)
(* ===================================================================== *)

(** X19.  One call of [freePort] runs exactly one command, the lookup of
    its port, sends at most one SIGTERM, waits 700 ms at most, and leaves
    the watched arrays as they are. *)
Theorem freePort_bounded {os : OS} (prt : Z) (s : State World) :
  exists evs,
    grows_by s (snd (freePort prt s)) evs
    /\ commands evs = [lookup_command prt]
    /\ (length (filter (fun ev => match ev with EvKill _ SIGTERM => true | _ => false end)
                       evs) <= 1)%nat
    /\ 0 <= waited evs <= 700.
Proof.
  rewrite freePort_run.
  destruct (os_exec (world s) (lookup_command prt)) as [w [out|]].
  - destruct (freePort_target prt out) as [p|].
    + eexists. split; [repeat split|].
      destruct (kill_run_prefix w p) as [n [Hn He]]. rewrite He.
      destruct Hn as [Hn | [Hn | [Hn | Hn]]]; subst n; simpl;
        repeat split; try reflexivity; lia.
    + eexists. split; [repeat split|]. simpl. repeat split; try reflexivity; lia.
  - eexists. split; [repeat split|]. simpl. repeat split; try reflexivity; lia.
Qed.

(** X20.  One sweep waits at most 700 ms for each distinct process
    identifier discovery reported: nothing when nothing is found. *)
Theorem sweep_wait_bound {os : OS} (s : State World) :
  exists byName byPort evs,
    returned (discover s) = Some (byName, byPort)
    /\ grows_by s (snd (cleanupOrphanedMcpProcesses s)) evs
    /\ 0 <= waited evs <= 700 * NumMap.size (dedupe (byName ++ byPort)).
Proof.
  destruct (cleanup_run s)
    as [byName [byPort [n [s' [evs [Hd [Hc [Hg [_ [_ [_ [_ Hw]]]]]]]]]]]].
  exists byName, byPort, evs. unfold returned. rewrite Hd, Hc.
  split; [reflexivity|]. split; [exact Hg|exact Hw].
Qed.

(** X21.  A sweep that follows the registration of a port runs the
    lookup of that port, and a sweep that follows the registration of a
    pattern runs the search for that pattern. *)
Theorem registered_values_are_probed {os : OS} (s : State World) (prt : Z)
        (pattern : string) :
  (exists evs,
     grows_by (snd (registerMcpPort prt s))
              (snd (cleanupOrphanedMcpProcesses (snd (registerMcpPort prt s)))) evs
     /\ In (lookup_command prt) (commands evs))
  /\ (exists evs,
        grows_by (snd (registerMcpPattern pattern s))
                 (snd (cleanupOrphanedMcpProcesses (snd (registerMcpPattern pattern s))))
                 evs
        /\ In (match_command pattern) (commands evs)).
Proof.
  split.
  - destruct (register_step (RegisterPort prt) s)
      as [s1 [Hr [_ [_ [_ [_ [_ [_ [Hp _]]]]]]]]].
    simpl in Hr. rewrite Hr. simpl.
    destruct (cleanup_run s1)
      as [byName [byPort [n [s' [evs [_ [Hc [Hg [_ [_ [_ [Hcmd _]]]]]]]]]]]].
    exists evs. rewrite Hc. split; [exact Hg|].
    rewrite Hcmd. unfold discovery_events. rewrite commands_app, !commands_execs.
    apply in_or_app. right. apply in_map. apply Hp. right. reflexivity.
  - destruct (register_step (RegisterPattern pattern) s)
      as [s1 [Hr [_ [_ [_ [_ [_ [_ [_ Hq]]]]]]]]].
    simpl in Hr. rewrite Hr. simpl.
    destruct (cleanup_run s1)
      as [byName [byPort [n [s' [evs [_ [Hc [Hg [_ [_ [_ [Hcmd _]]]]]]]]]]]].
    exists evs. rewrite Hc. split; [exact Hg|].
    rewrite Hcmd. unfold discovery_events. rewrite commands_app, !commands_execs.
    apply in_or_app. left. apply in_map. apply Hq. right. reflexivity.
Qed.
